(** * Spotify listening-history pipeline: a shallow embedding of [app.py]

    The development follows the source file top to bottom: the calendar
    arithmetic behind pandas timestamps, the uploaded files and
    [load_data], the in-place column assignments of [clean_data], and the
    aggregations computed under the four tabs.  Tables are lists of rows in
    positional order; timestamps are whole seconds since 1970-01-01T00:00:00
    UTC. *)

From Stdlib Require Import ZArith List String Ascii Bool Lia Permutation Sorted.
Import ListNotations.
Open Scope string_scope.
Open Scope list_scope.
Open Scope Z_scope.

#[global] Arguments Z.add _ _ : simpl never.
#[global] Arguments Z.sub _ _ : simpl never.
#[global] Arguments Z.mul _ _ : simpl never.

(* ===================================================================== *)
(** ** Results and exceptions *)
(* ===================================================================== *)

(** The Python exceptions that the modelled statements can raise.
    [NoDataError] is the error class named by the specification; it is
    listed so that statements about it can be written down. *)
Inductive PyError : Type :=
  | ValueError        (* unparseable timestamp, unparseable pandas JSON *)
  | TypeError         (* tz_localize on aware data, tz_convert on naive data *)
  | AttributeError    (* the .dt accessor on a column that holds no datetimes *)
  | IndexError        (* index[0] of an empty index *)
  | JSONDecodeError   (* json.load on text that is not a JSON document *)
  | NoDataError.

Inductive result (A : Type) : Type :=
  | Ok (a : A)
  | Raise (e : PyError).
Arguments Ok {A} a.
Arguments Raise {A} e.

Definition bind {A B : Type} (r : result A) (k : A -> result B) : result B :=
  match r with
  | Ok a => k a
  | Raise e => Raise e
  end.

Fixpoint mapM {A B : Type} (f : A -> result B) (l : list A) : result (list B) :=
  match l with
  | [] => Ok []
  | x :: xs => bind (f x) (fun y => bind (mapM f xs) (fun ys => Ok (y :: ys)))
  end.

(* ===================================================================== *)
(** ** Calendar arithmetic *)
(* ===================================================================== *)

Definition secs_per_day : Z := 86400.

(** Day number (days since 1970-01-01) of a proleptic Gregorian date. *)
Definition days_from_civil (y m d : Z) : Z :=
  let y' := if m <=? 2 then y - 1 else y in
  let era := y' / 400 in
  let yoe := y' - era * 400 in
  let mp := if 2 <? m then m - 3 else m + 9 in
  let doy := (153 * mp + 2) / 5 + d - 1 in
  let doe := yoe * 365 + yoe / 4 - yoe / 100 + doy in
  era * 146097 + doe - 719468.

(** The date (year, month, day) of a day number. *)
Definition civil_from_days (z : Z) : Z * Z * Z :=
  let z' := z + 719468 in
  let era := z' / 146097 in
  let doe := z' - era * 146097 in
  let yoe := (doe - doe / 1460 + doe / 36524 - doe / 146096) / 365 in
  let doy := doe - (365 * yoe + yoe / 4 - yoe / 100) in
  let mp := (5 * doy + 2) / 153 in
  let d := doy - (153 * mp + 2) / 5 + 1 in
  let m := if mp <? 10 then mp + 3 else mp - 9 in
  ((if m <=? 2 then yoe + era * 400 + 1 else yoe + era * 400), m, d).

(** Day of the week of a day number, Monday = 0 ... Sunday = 6
    (1970-01-01 was a Thursday). *)
Definition weekday (days : Z) : Z := (days + 3) mod 7.

Definition is_leap (y : Z) : bool :=
  ((y mod 4 =? 0) && negb (y mod 100 =? 0)) || (y mod 400 =? 0).

Definition days_in_month (y m : Z) : Z :=
  if m =? 2 then (if is_leap y then 29 else 28)
  else if (m =? 4) || (m =? 6) || (m =? 9) || (m =? 11) then 30
  else 31.

(** Wall-clock fields of a count of seconds read as a civil time. *)
Definition date_of (secs : Z) : Z * Z * Z := civil_from_days (secs / secs_per_day).
Definition year_of (secs : Z) : Z := fst (fst (date_of secs)).
Definition month_of (secs : Z) : Z := snd (fst (date_of secs)).
Definition hour_of (secs : Z) : Z := (secs mod secs_per_day) / 3600.

Definition civil_seconds (y m d hh mm ss : Z) : Z :=
  days_from_civil y m d * secs_per_day + hh * 3600 + mm * 60 + ss.

Definition day_names : list string :=
  ["Monday"; "Tuesday"; "Wednesday"; "Thursday"; "Friday"; "Saturday"; "Sunday"].

Definition day_name_of (secs : Z) : string :=
  nth (Z.to_nat (weekday (secs / secs_per_day))) day_names "".

(* ===================================================================== *)
(** ** Time zones *)
(* ===================================================================== *)

Inductive Zone : Type := UTC | US_Central.

(** The first Sunday on or after the given date, as a day number. *)
Definition sunday_on_or_after (y m d : Z) : Z :=
  let d0 := days_from_civil y m d in
  d0 + (6 - weekday d0) mod 7.

(** Day on which daylight-saving time starts in the United States in year
    [y], after the federal rules in force from 1967 on. *)
Definition us_dst_start_day (y : Z) : Z :=
  if 2007 <=? y then sunday_on_or_after y 3 8          (* second Sunday of March *)
  else if 1987 <=? y then sunday_on_or_after y 4 1     (* first Sunday of April *)
  else if 1976 <=? y then sunday_on_or_after y 4 24    (* last Sunday of April *)
  else if y =? 1975 then days_from_civil 1975 2 23
  else if y =? 1974 then days_from_civil 1974 1 6
  else sunday_on_or_after y 4 24.                      (* last Sunday of April *)

(** Day on which daylight-saving time ends. *)
Definition us_dst_end_day (y : Z) : Z :=
  if 2007 <=? y then sunday_on_or_after y 11 1         (* first Sunday of November *)
  else sunday_on_or_after y 10 25.                     (* last Sunday of October *)

Definition cst_offset : Z := -21600.   (* -06:00 *)
Definition cdt_offset : Z := -18000.   (* -05:00 *)

(** Clocks go forward at 02:00 standard time (08:00 UTC) and back at 02:00
    daylight time (07:00 UTC). *)
Definition central_dst_start (y : Z) : Z := us_dst_start_day y * secs_per_day + 8 * 3600.
Definition central_dst_end (y : Z) : Z := us_dst_end_day y * secs_per_day + 7 * 3600.

(** Offset from UTC, in seconds, in force in the zone at the instant [t].
    "US/Central" is the tz database's America/Chicago, which has followed
    the federal rules since 1967; earlier instants, where Chicago kept local
    rules, are given standard time and no statement below relies on them. *)
Definition utcoffset (z : Zone) (t : Z) : Z :=
  match z with
  | UTC => 0
  | US_Central =>
      let y := year_of t in
      if (1967 <=? y) && (central_dst_start y <=? t) && (t <? central_dst_end y)
      then cdt_offset else cst_offset
  end.

(** Wall-clock reading, as civil seconds, of instant [t] in zone [z]. *)
Definition wall_clock (z : Zone) (t : Z) : Z := t + utcoffset z t.

(* ===================================================================== *)
(** ** Parsing the export's timestamps *)
(* ===================================================================== *)

Definition digit_of (c : ascii) : option Z :=
  let n := Z.of_nat (nat_of_ascii c) in
  if (48 <=? n) && (n <=? 57) then Some (n - 48) else None.

(** Reads exactly [n] decimal digits from the front of [s]. *)
Fixpoint take_digits (n : nat) (acc : Z) (s : string) : option (Z * string) :=
  match n with
  | O => Some (acc, s)
  | S n' =>
      match s with
      | String c rest =>
          match digit_of c with
          | Some v => take_digits n' (10 * acc + v) rest
          | None => None
          end
      | EmptyString => None
      end
  end.

Definition expect (c : ascii) (s : string) : option string :=
  match s with
  | String c' rest => if Ascii.eqb c c' then Some rest else None
  | EmptyString => None
  end.

Definition obind {A B : Type} (o : option A) (k : A -> option B) : option B :=
  match o with
  | Some a => k a
  | None => None
  end.

Definition date_sep (s : string) : option string :=
  match s with
  | String c rest => if Ascii.eqb c " " || Ascii.eqb c "T" then Some rest else None
  | EmptyString => None
  end.

(** Optional seconds field: either the end of the text or ":SS". *)
Definition parse_seconds (s : string) : option Z :=
  match s with
  | EmptyString => Some 0
  | _ => obind (expect ":" s) (fun s1 =>
         obind (take_digits 2 0 s1) (fun '(ss, s2) =>
         match s2 with
         | EmptyString => if ss <=? 59 then Some ss else None
         | _ => None
         end))
  end.

(** [pd.to_datetime] on one text of the ISO-like shapes found in the export:
    "YYYY-MM-DD HH:MM", "YYYY-MM-DD HH:MM:SS", or the same with "T" between
    date and time.  The result is a naive instant: the civil reading taken
    as is, with no zone attached. *)
Definition parse_timestamp (s : string) : option Z :=
  obind (take_digits 4 0 s) (fun '(y, s1) =>
  obind (expect "-" s1) (fun s2 =>
  obind (take_digits 2 0 s2) (fun '(m, s3) =>
  obind (expect "-" s3) (fun s4 =>
  obind (take_digits 2 0 s4) (fun '(d, s5) =>
  obind (date_sep s5) (fun s6 =>
  obind (take_digits 2 0 s6) (fun '(hh, s7) =>
  obind (expect ":" s7) (fun s8 =>
  obind (take_digits 2 0 s8) (fun '(mm, s9) =>
  obind (parse_seconds s9) (fun ss =>
  if (1 <=? m) && (m <=? 12) && (1 <=? d) && (d <=? days_in_month y m)
     && (hh <=? 23) && (mm <=? 59)
  then Some (civil_seconds y m d hh mm ss)
  else None)))))))))).

(* ===================================================================== *)
(** ** State and error monad *)
(* ===================================================================== *)

(** A statement that may update a mutable object of type [S] and may raise:
    it returns the object's state afterwards together with a value or the
    exception.  An exception leaves the updates made before it in place. *)
Definition ST (S A : Type) : Type := S -> S * result A.

Definition ret {S A : Type} (a : A) : ST S A := fun s => (s, Ok a).

Definition lift {S A : Type} (r : result A) : ST S A := fun s => (s, r).

Definition sbind {S A B : Type} (m : ST S A) (k : A -> ST S B) : ST S B :=
  fun s =>
    match m s with
    | (s', Ok a) => k a s'
    | (s', Raise e) => (s', Raise e)
    end.

Notation "x <- m ;; k" := (sbind m (fun x => k))
  (at level 61, m at next level, right associativity).
Notation "m ;;; k" := (sbind m (fun _ => k))
  (at level 61, right associativity).

Fixpoint smapM {S A B : Type} (f : A -> ST S B) (l : list A) : ST S (list B) :=
  match l with
  | [] => ret []
  | x :: xs => y <- f x ;; ys <- smapM f xs ;; ret (y :: ys)
  end.

(* ===================================================================== *)
(** ** Tables *)
(* ===================================================================== *)

(** A cell of the [endTime] column: the text of the export, a naive
    datetime, or a zone-aware datetime (an instant with its zone). *)
Inductive TimeCell : Type :=
  | TStr (s : string)
  | TNaive (t : Z)
  | TAware (z : Zone) (t : Z).

(** One record of a StreamingHistory file. *)
Record RawRow : Type := mkRaw {
  endTime : TimeCell;
  artistName : string;
  trackName : string;
  msPlayed : Z
}.

Definition DataFrame : Type := list RawRow.

(** A row of the frame returned by [clean_data]: the columns of the input
    frame and the two derived columns. *)
Record CanonRow : Type := mkCanon {
  base : RawRow;
  hour : Z;
  day_of_week : string
}.

Definition CanonTable : Type := list CanonRow.

Definition set_endTime (c : TimeCell) (r : RawRow) : RawRow :=
  mkRaw c (artistName r) (trackName r) (msPlayed r).

(* ===================================================================== *)
(** ** Uploaded files and [load_data] *)
(* ===================================================================== *)

Record UploadedFile : Type := mkFile {
  name : string;
  data : string
}.

(** [needle in hay] on Python strings: case-sensitive substring test. *)
Fixpoint contains (needle hay : string) : bool :=
  String.prefix needle hay ||
  match hay with
  | EmptyString => false
  | String _ rest => contains needle rest
  end.

(** The list comprehension [[f for f in uploaded_files if token in f.name]].
    The groups hold references to the uploaded file objects themselves; a
    reference is the file's position in [uploaded_files]. *)
Fixpoint select_from (token : string) (i : nat) (files : list UploadedFile) : list nat :=
  match files with
  | [] => []
  | f :: fs =>
      if contains token (name f) then i :: select_from token (S i) fs
      else select_from token (S i) fs
  end.

Definition select (token : string) (files : list UploadedFile) : list nat :=
  select_from token 0 files.

(** The three kinds of file the page looks for, and the text that marks
    each in a file name. *)
Inductive Category : Type := Streaming | Wrapped | Search.

Definition token (c : Category) : string :=
  match c with
  | Streaming => "StreamingHistory"
  | Wrapped => "Wrapped"
  | Search => "SearchQueries"
  end.

(** The list [streaming_files], [wrapped_files] or [search_files]. *)
Definition group (c : Category) (files : list UploadedFile) : list nat :=
  select (token c) files.

(** The uploaded files while [load_data] runs.  Each file is a stream read
    from its current position: [unread] holds what is left of each file,
    and a read takes all of it.  [reads] records, in order, which file was
    read for which kind and the text that the read delivered. *)
Record Session : Type := mkSession {
  unread : list string;
  reads : list (nat * Category * string)
}.

Definition open_files (files : list UploadedFile) : Session :=
  mkSession (map data files) [].

Fixpoint drain (i : nat) (l : list string) : list string :=
  match l, i with
  | [], _ => []
  | _ :: xs, O => "" :: xs
  | x :: xs, S i' => x :: drain i' xs
  end.

(** [file.read()]: the rest of file [i]; the file is left at its end. *)
Definition read_file (i : nat) (c : Category) : ST Session string :=
  fun s => (mkSession (drain i (unread s)) (reads s ++ [(i, c, nth i (unread s) "")]),
            Ok (nth i (unread s) "")).

Record Data (Doc SearchFrame : Type) : Type := mkData {
  streaming : option DataFrame;
  wrapped : option Doc;
  search : option SearchFrame
}.
Arguments mkData {Doc SearchFrame}.
Arguments streaming {Doc SearchFrame}.
Arguments wrapped {Doc SearchFrame}.
Arguments search {Doc SearchFrame}.

Section Loading.

(** The JSON decoders are library code: [pd.read_json] at the shape of
    the streaming history, [json.load], and [pd.read_json] at the shape of
    the search export.  Each is a function of the text it is given. *)
Variables (Doc SearchFrame : Type).
Variable pd_read_json : string -> result DataFrame.
Variable json_load : string -> result Doc.
Variable pd_read_json_search : string -> result SearchFrame.

Definition read_streaming (i : nat) : ST Session DataFrame :=
  text <- read_file i Streaming ;; lift (pd_read_json text).

Definition read_wrapped (i : nat) : ST Session Doc :=
  text <- read_file i Wrapped ;; lift (json_load text).

Definition read_search (i : nat) : ST Session SearchFrame :=
  text <- read_file i Search ;; lift (pd_read_json_search text).

Definition load_data (uploaded_files : list UploadedFile)
  : ST Session (Data Doc SearchFrame) :=
  let streaming_files := select "StreamingHistory" uploaded_files in
  let wrapped_files := select "Wrapped" uploaded_files in
  let search_files := select "SearchQueries" uploaded_files in
  st <- match streaming_files with
        | [] => ret None
        | _ => df_list <- smapM read_streaming streaming_files ;;
               ret (Some (List.concat df_list))
        end ;;
  wr <- match wrapped_files with
        | [] => ret None
        | i :: _ => d <- read_wrapped i ;; ret (Some d)
        end ;;
  se <- match search_files with
        | [] => ret None
        | i :: _ => d <- read_search i ;; ret (Some d)
        end ;;
  ret (mkData st wr se).

End Loading.

(* ===================================================================== *)
(** ** [clean_data] *)
(* ===================================================================== *)

(** [pd.to_datetime] on one cell. *)
Definition to_datetime (c : TimeCell) : result TimeCell :=
  match c with
  | TStr s =>
      match parse_timestamp s with
      | Some t => Ok (TNaive t)
      | None => Raise ValueError
      end
  | _ => Ok c
  end.

(** [.dt.tz_localize('UTC')]: declares a naive datetime to be UTC; the
    civil reading is kept, and in UTC the instant is the reading itself.
    Data that already has a zone is refused. *)
Definition tz_localize_UTC (c : TimeCell) : result TimeCell :=
  match c with
  | TStr _ => Raise AttributeError
  | TNaive t => Ok (TAware UTC t)
  | TAware _ _ => Raise TypeError
  end.

(** [.dt.tz_convert(z)]: the same instant seen from another zone. *)
Definition tz_convert (z : Zone) (c : TimeCell) : result TimeCell :=
  match c with
  | TStr _ => Raise AttributeError
  | TNaive _ => Raise TypeError
  | TAware _ t => Ok (TAware z t)
  end.

(** The civil reading that the [.dt] accessors of a cell work on. *)
Definition dt_fields (c : TimeCell) : result Z :=
  match c with
  | TStr _ => Raise AttributeError
  | TNaive t => Ok t
  | TAware z t => Ok (wall_clock z t)
  end.

Definition dt_hour (c : TimeCell) : result Z :=
  bind (dt_fields c) (fun w => Ok (hour_of w)).

Definition dt_day_name (c : TimeCell) : result string :=
  bind (dt_fields c) (fun w => Ok (day_name_of w)).

(** [df['endTime'] = f(df['endTime'])]: the right-hand side is computed
    first; when it raises, the frame is left as it was; otherwise the
    column of the frame itself is replaced. *)
Definition assign_endTime (f : TimeCell -> result TimeCell) : ST DataFrame unit :=
  fun df =>
    match mapM (fun r => bind (f (endTime r)) (fun c => Ok (set_endTime c r))) df with
    | Ok df' => (df', Ok tt)
    | Raise e => (df, Raise e)
    end.

Definition get_frame : ST DataFrame DataFrame := fun df => (df, Ok df).

Definition add_derived (r : RawRow) : result CanonRow :=
  bind (dt_hour (endTime r)) (fun h =>
  bind (dt_day_name (endTime r)) (fun d =>
  Ok (mkCanon r h d))).

Definition min_ms : Z := 30000.

(** [clean_data(df)], acting on the frame object it is passed. *)
Definition clean_data : ST DataFrame CanonTable :=
  assign_endTime to_datetime ;;;
  assign_endTime tz_localize_UTC ;;;
  assign_endTime (tz_convert US_Central) ;;;
  df <- get_frame ;;
  let df_filtered := filter (fun r => min_ms <? msPlayed r) df in
  lift (mapM add_derived df_filtered).

(* ===================================================================== *)
(** ** Counting values: [value_counts], [head], [sort_index], [reindex] *)
(* ===================================================================== *)

Section Counting.

Context {K : Type} (eqb : K -> K -> bool).

(** One more occurrence of [k] in a table of counts.  A new key goes to
    the end, so the table lists keys in the order they were first met. *)
Fixpoint bump (k : K) (tbl : list (K * Z)) : list (K * Z) :=
  match tbl with
  | [] => [(k, 1)]
  | (k', c) :: rest =>
      if eqb k k' then (k', c + 1) :: rest else (k', c) :: bump k rest
  end.

(** The pass over the column that counts each distinct value. *)
Definition tally (col : list K) : list (K * Z) :=
  fold_left (fun tbl k => bump k tbl) col [].

(** Places an entry in a table sorted by falling count, ahead of the
    entries that do not have a larger count. *)
Fixpoint insert_desc (x : K * Z) (tbl : list (K * Z)) : list (K * Z) :=
  match tbl with
  | [] => [x]
  | y :: rest =>
      if snd x <? snd y then y :: insert_desc x rest else x :: y :: rest
  end.

(** [sort_values(ascending=False)]; equal counts keep their order. *)
Fixpoint sort_values_desc (tbl : list (K * Z)) : list (K * Z) :=
  match tbl with
  | [] => []
  | x :: rest => insert_desc x (sort_values_desc rest)
  end.

(** [Series.value_counts()]: one entry per distinct value with its number
    of occurrences, largest count first. *)
Definition value_counts (col : list K) : list (K * Z) :=
  sort_values_desc (tally col).

(** [Series.nunique()]. *)
Definition nunique (col : list K) : Z := Z.of_nat (List.length (tally col)).

Fixpoint lookup (k : K) (tbl : list (K * Z)) : option Z :=
  match tbl with
  | [] => None
  | (k', c) :: rest => if eqb k k' then Some c else lookup k rest
  end.

(** [Series.reindex(labels)]: one entry per label, in the order of
    [labels]; a label the series does not have gets the missing value
    NaN, here [None]. *)
Definition reindex (labels : list K) (tbl : list (K * Z)) : list (K * option Z) :=
  map (fun k => (k, lookup k tbl)) labels.

(** [index[0]] of a series. *)
Definition index0 (tbl : list (K * Z)) : result K :=
  match tbl with
  | [] => Raise IndexError
  | (k, _) :: _ => Ok k
  end.

(** The distinct values of a column, each at the place of its first
    occurrence. *)
Fixpoint first_seen (col : list K) : list K :=
  match col with
  | [] => []
  | x :: xs => x :: filter (fun y => negb (eqb x y)) (first_seen xs)
  end.

Definition mem (k : K) (l : list K) : bool := existsb (eqb k) l.

(** Number of occurrences of [k] in a column. *)
Fixpoint occurrences (k : K) (col : list K) : Z :=
  match col with
  | [] => 0
  | x :: xs => (if eqb k x then 1 else 0) + occurrences k xs
  end.

End Counting.

(** A table whose counts never rise from one entry to a later one. *)
Definition by_falling_count {K : Type} (tbl : list (K * Z)) : Prop :=
  StronglySorted (fun a b => snd b <= snd a) tbl.


(** A series whose index rises strictly from one entry to the next. *)
Definition by_rising_index {V : Type} (tbl : list (Z * V)) : Prop :=
  StronglySorted (fun a b => fst a < fst b) tbl.

(** [Series.head(n)]. *)
Definition head {A : Type} (n : nat) (s : list A) : list A := firstn n s.

(** [col.value_counts().head(n)], the expression behind every top list. *)
Definition top_counts (n : nat) (col : list string) : list (string * Z) :=
  head n (value_counts String.eqb col).

Fixpoint insert_by_index (x : Z * Z) (tbl : list (Z * Z)) : list (Z * Z) :=
  match tbl with
  | [] => [x]
  | y :: rest =>
      if fst y <? fst x then y :: insert_by_index x rest else x :: y :: rest
  end.

(** [Series.sort_index()] on a series indexed by integers. *)
Fixpoint sort_index (tbl : list (Z * Z)) : list (Z * Z) :=
  match tbl with
  | [] => []
  | x :: rest => insert_by_index x (sort_index rest)
  end.

(* ===================================================================== *)
(** ** The aggregations of the four tabs *)
(* ===================================================================== *)

Definition artist_col (df : CanonTable) : list string := map (fun r => artistName (base r)) df.
Definition track_col (df : CanonTable) : list string := map (fun r => trackName (base r)) df.
Definition hour_col (df : CanonTable) : list Z := map hour df.
Definition day_col (df : CanonTable) : list string := map day_of_week df.

(** Tab 1.  [total_ms] is [df['msPlayed'].sum()]; the page divides it by
    3 600 000 to show hours. *)
Definition total_ms (df : CanonTable) : Z :=
  fold_right Z.add 0 (map (fun r => msPlayed (base r)) df).
Definition unique_songs (df : CanonTable) : Z := nunique String.eqb (track_col df).
Definition unique_artists (df : CanonTable) : Z := nunique String.eqb (artist_col df).

(** The civil reading of an index entry; [resample] accepts only a
    datetime index. *)
Definition datetime_index (c : TimeCell) : result Z :=
  match c with
  | TStr _ => Raise TypeError
  | TNaive t => Ok t
  | TAware z t => Ok (wall_clock z t)
  end.

(** Months are numbered consecutively: twelve times the year plus the
    month of the year counted from zero. *)
Definition month_index (w : Z) : Z := year_of w * 12 + (month_of w - 1).
Definition month_label (i : Z) : Z * Z := (i / 12, i mod 12 + 1).

(** The months from [lo] to [hi], one after the other. *)
Definition month_span (lo hi : Z) : list Z :=
  map (fun i => lo + Z.of_nat i) (seq 0 (Z.to_nat (hi - lo + 1))).

(** [df.set_index('endTime').resample('M').size()]: the index is cut into
    calendar-month bins of the index's own zone, from the bin of the
    earliest entry to the bin of the latest, and every bin reports how many
    rows fall in it.  A bin is labelled here by (year, month). *)
Definition monthly_listening (df : CanonTable) : result (list ((Z * Z) * Z)) :=
  bind (mapM (fun r => datetime_index (endTime (base r))) df) (fun ws =>
    match map month_index ws with
    | [] => Ok []
    | m0 :: rest =>
        let lo := fold_left Z.min rest m0 in
        let hi := fold_left Z.max rest m0 in
        Ok (map (fun m => (month_label m, occurrences Z.eqb m (m0 :: rest)))
                (month_span lo hi))
    end).

(** Tab 2. *)
Definition top_10_songs (df : CanonTable) : list (string * Z) := top_counts 10 (track_col df).
Definition top_10_artists (df : CanonTable) : list (string * Z) := top_counts 10 (artist_col df).

(** Tab 3. *)
Definition hourly_counts (df : CanonTable) : list (Z * Z) :=
  sort_index (value_counts Z.eqb (hour_col df)).

Definition daily_counts (df : CanonTable) : list (string * option Z) :=
  reindex String.eqb day_names (value_counts String.eqb (day_col df)).

(** Tab 4. *)
Definition top_artist_name (df : CanonTable) : result string :=
  index0 (value_counts String.eqb (artist_col df)).

Definition artist_rows (artist : string) (df : CanonTable) : CanonTable :=
  filter (fun r => String.eqb (artistName (base r)) artist) df.

Record DeepDive : Type := mkDeepDive {
  dd_artist : string;
  dd_top_tracks : list (string * Z);
  dd_hourly : list (Z * Z)
}.

(** The body of the tab once the artist's name is known. *)
Definition deep_dive_for (artist : string) (df : CanonTable) : DeepDive :=
  let artist_df := artist_rows artist df in
  mkDeepDive artist (top_counts 5 (track_col artist_df)) (hourly_counts artist_df).

Definition artist_deep_dive (df : CanonTable) : result DeepDive :=
  bind (top_artist_name df) (fun top => Ok (deep_dive_for top df)).

(* ===================================================================== *)
(** ** The run of the page on an upload *)
(* ===================================================================== *)

Inductive Outcome : Type :=
  | NoStreamingHistory                            (* the warning branch *)
  | Ready (raw_df : DataFrame) (df : CanonTable)  (* both frames after clean_data *)
  | Failed (e : PyError).                         (* caught by the except clause *)

Section Page.

Variables (Doc SearchFrame : Type).
Variable pd_read_json : string -> result DataFrame.
Variable json_load : string -> result Doc.
Variable pd_read_json_search : string -> result SearchFrame.

(** From the upload to the cleaned frame: [load_data], the test of
    [data["streaming"]], then [clean_data] on that frame object. *)
Definition process (uploaded_files : list UploadedFile) : Outcome :=
  match load_data Doc SearchFrame pd_read_json json_load pd_read_json_search
                  uploaded_files (open_files uploaded_files) with
  | (_, Raise e) => Failed e
  | (_, Ok d) =>
      match streaming d with
      | None => NoStreamingHistory
      | Some raw_df =>
          match clean_data raw_df with
          | (_, Raise e) => Failed e
          | (raw_df', Ok df) => Ready raw_df' df
          end
      end
  end.

End Page.

(* ===================================================================== *)
(** ** Reference readings used in the statements *)
(* ===================================================================== *)

(** The naive instant that [clean_data] accepts from a cell: the parsed
    text, or a datetime that is still naive. *)
Definition instant_of (c : TimeCell) : option Z :=
  match c with
  | TStr s => parse_timestamp s
  | TNaive t => Some t
  | TAware _ _ => None
  end.

Definition keeps (r : RawRow) : bool := min_ms <? msPlayed r.

(** [localized r r']: [r'] is [r] with its timestamp read as a naive
    instant and shown in US/Central. *)
Definition localized (r r' : RawRow) : Prop :=
  exists t, instant_of (endTime r) = Some t /\ r' = set_endTime (TAware US_Central t) r.

(** [derived r' c]: [c] is [r'] with hour and day name taken from the
    wall clock of its zone-aware timestamp. *)
Definition derived (r' : RawRow) (c : CanonRow) : Prop :=
  exists t, endTime r' = TAware US_Central t /\
            c = mkCanon r' (hour_of (wall_clock US_Central t))
                           (day_name_of (wall_clock US_Central t)).

(** A raw row as [pd.read_json] delivers it. *)
Definition raw_row (time artist track : string) (ms : Z) : RawRow :=
  mkRaw (TStr time) artist track ms.

(** The civil reading a cell shows in its own zone. *)
Definition local_reading (c : TimeCell) : Z :=
  match c with
  | TStr _ => 0
  | TNaive t => t
  | TAware z t => wall_clock z t
  end.

(** The month, in the consecutive numbering, in which a row falls. *)
Definition row_month (c : CanonRow) : Z := month_index (local_reading (endTime (base c))).

(** Calendar order on (year, month) labels. *)
Definition month_before (a b : Z * Z) : Prop :=
  fst a < fst b \/ (fst a = fst b /\ snd a < snd b).

(** A frame with plays in January and in March 2024 and none in between. *)
Definition gap_frame : DataFrame :=
  [ raw_row "2024-01-15 18:00:00" "A" "T1" 200000;
    raw_row "2024-03-20 18:00:00" "B" "T2" 200000 ].


(** The file that [load_data] reads for a kind of which only the first
    file is used. *)
Definition first_of (c : Category) (files : list UploadedFile) : list nat :=
  match group c files with
  | [] => []
  | i :: _ => [i]
  end.

(** What a read of file [i] delivers once the files in [before] have been
    read: nothing if [i] is one of them, the file's content otherwise. *)
Definition text_after (before : list nat) (files : list UploadedFile) (i : nat) : string :=
  if existsb (Nat.eqb i) before then "" else nth i (map data files) "".

(** The reads of a run of [load_data] in which no decoder raises. *)
Definition planned_reads (files : list UploadedFile) : list (nat * Category * string) :=
  map (fun i => (i, Streaming, nth i (map data files) "")) (group Streaming files) ++
  map (fun i => (i, Wrapped, text_after (group Streaming files) files i))
      (first_of Wrapped files) ++
  map (fun i => (i, Search,
                 text_after (group Streaming files ++ first_of Wrapped files) files i))
      (first_of Search files).

(** Stand-ins for the library decoders in the examples: each knows the
    texts of the example files and refuses the empty text. *)
Definition example_read_json (text : string) : result DataFrame :=
  if String.eqb text "history-one" then Ok [raw_row "2024-03-01 23:00:00" "A" "T1" 200000]
  else if String.eqb text "history-two" then Ok [raw_row "2024-03-02 01:00:00" "B" "T2" 10000]
  else Raise ValueError.

Definition example_json_load (text : string) : result string :=
  if String.eqb text "" then Raise JSONDecodeError else Ok text.

Definition example_read_search (text : string) : result (list string) :=
  if String.eqb text "" then Raise ValueError else Ok [text].

Definition history_one : UploadedFile := mkFile "StreamingHistory0.json" "history-one".
Definition two_token_file : UploadedFile := mkFile "StreamingHistory_Wrapped.json" "history-two".

(** A small frame with plays on both sides of the threshold. *)
Definition sample_frame : DataFrame :=
  [ raw_row "2024-03-01 23:00:00" "A" "T1" 200000;
    raw_row "2024-03-02 01:00:00" "B" "T2" 10000;
    raw_row "2024-03-02 02:00:00" "B" "T3" 30000;
    raw_row "2024-07-04 12:00:00" "C" "T4" 30001 ].

(** The frame that [clean_data] returns for [sample_frame]. *)
Definition sample_cleaned : CanonTable :=
  [ mkCanon (mkRaw (TAware US_Central 1709334000) "A" "T1" 200000) 17 "Friday";
    mkCanon (mkRaw (TAware US_Central 1720094400) "C" "T4" 30001) 7 "Thursday" ].

(** The sum of the counts of a series. *)
Definition sum_counts {K : Type} (tbl : list (K * Z)) : Z :=
  fold_right Z.add 0 (map snd tbl).



(** An uploaded file whose name contains none of the three tokens. *)
Definition other_file : UploadedFile := mkFile "Playlist1.json" "playlists".

(* ===================================================================== *)
(** * Properties *)
(* ===================================================================== *)

(** ** Generic facts about [mapM] *)

Lemma mapM_Forall2 {A B : Type} (f : A -> result B) (l : list A) (l' : list B) :
  mapM f l = Ok l' <-> Forall2 (fun x y => f x = Ok y) l l'.
Proof.
  revert l'; induction l as [|x xs IH]; intros l'; simpl.
  - split; intros H.
    + injection H as <-. constructor.
    + inversion H. reflexivity.
  - split; intros H.
    + destruct (f x) as [y|e] eqn:Ex; simpl in H; [|discriminate].
      destruct (mapM f xs) as [ys|e] eqn:Exs; simpl in H; [|discriminate].
      injection H as <-. constructor; [exact Ex|]. apply IH. reflexivity.
    + inversion H as [|x' y xs' ys Hxy Hrest]; subst.
      rewrite Hxy. simpl. apply IH in Hrest. rewrite Hrest. reflexivity.
Qed.



(** ** The column assignments of [clean_data] *)

Lemma assign_endTime_ok f df df' :
  assign_endTime f df = (df', Ok tt) ->
  Forall2 (fun r r' => exists c, f (endTime r) = Ok c /\ r' = set_endTime c r) df df'.
Proof.
  unfold assign_endTime. intros H.
  destruct (mapM _ df) as [d|e] eqn:E; [|discriminate].
  injection H as <-. apply mapM_Forall2 in E.
  induction E as [|r r' l l' Hr _ IH]; constructor; [|exact IH].
  destruct (f (endTime r)) as [c|e]; simpl in Hr; [|discriminate].
  injection Hr as <-. exists c. split; reflexivity.
Qed.


(** The three assignments taken together, row by row. *)
Lemma localize_chain r r1 r2 r3 :
  (exists c, to_datetime (endTime r) = Ok c /\ r1 = set_endTime c r) ->
  (exists c, tz_localize_UTC (endTime r1) = Ok c /\ r2 = set_endTime c r1) ->
  (exists c, tz_convert US_Central (endTime r2) = Ok c /\ r3 = set_endTime c r2) ->
  exists t, instant_of (endTime r) = Some t /\ r3 = set_endTime (TAware US_Central t) r.
Proof.
  intros [c1 [H1 ->]] [c2 [H2 ->]] [c3 [H3 ->]]. simpl in *.
  destruct (endTime r) as [s|t|z t] eqn:Er; simpl in *.
  - destruct (parse_timestamp s) as [t|]; [|discriminate].
    injection H1 as <-. simpl in H2. injection H2 as <-. simpl in H3. injection H3 as <-.
    exists t. split; reflexivity.
  - injection H1 as <-. simpl in H2. injection H2 as <-. simpl in H3. injection H3 as <-.
    exists t. split; reflexivity.
  - injection H1 as <-. simpl in H2. discriminate.
Qed.

Lemma Forall2_chain3 {A : Type} (P Q R S : A -> A -> Prop) (l0 l1 l2 l3 : list A) :
  (forall a b c d, P a b -> Q b c -> R c d -> S a d) ->
  Forall2 P l0 l1 -> Forall2 Q l1 l2 -> Forall2 R l2 l3 -> Forall2 S l0 l3.
Proof.
  intros HS H1. revert l2 l3.
  induction H1 as [|a b l0 l1 Hab _ IH]; intros l2 l3 H2 H3.
  - inversion H2; subst. inversion H3; subst. constructor.
  - inversion H2 as [|? c ? l2' Hbc H2']; subst.
    inversion H3 as [|? d ? l3' Hcd H3']; subst.
    constructor; [eapply HS; eassumption | eapply IH; eassumption].
Qed.

Lemma add_derived_inv r c : add_derived r = Ok c -> (exists w, dt_fields (endTime r) = Ok w /\
   c = mkCanon r (hour_of w) (day_name_of w)).
Proof.
  unfold add_derived, dt_hour, dt_day_name. intros H.
  destruct (dt_fields (endTime r)) as [w|e]; simpl in H; [|discriminate].
  injection H as <-. exists w. split; reflexivity.
Qed.

(** What a successful call of [clean_data] has done: the frame it was
    given now holds the localized timestamps, and the returned frame is the
    rows of that frame that pass the duration test, in the same order, each
    with its two derived columns. *)
Lemma clean_data_inv df df' out :
  clean_data df = (df', Ok out) ->
  Forall2 localized df df' /\
  Forall2 derived (filter keeps df') out.
Proof.
  unfold clean_data, sbind, get_frame, lift. intros H.
  destruct (assign_endTime to_datetime df) as [d1 [[]|e1]] eqn:E1; [|discriminate].
  destruct (assign_endTime tz_localize_UTC d1) as [d2 [[]|e2]] eqn:E2; [|discriminate].
  destruct (assign_endTime (tz_convert US_Central) d2) as [d3 [[]|e3]] eqn:E3; [|discriminate].
  injection H as <- Hout.
  apply assign_endTime_ok in E1, E2, E3.
  assert (Hloc : Forall2 localized df d3).
  { eapply Forall2_chain3; [|exact E1|exact E2|exact E3].
    intros a b c d Hab Hbc Hcd. cbv beta in *. unfold localized.
    exact (localize_chain a b c d Hab Hbc Hcd). }
  split; [exact Hloc|].
  assert (Haware : Forall (fun r' => exists t, endTime r' = TAware US_Central t) d3).
  { clear -Hloc. induction Hloc as [|r r' l l' [t [_ ->]] _ IH]; constructor; [|exact IH].
    exists t. reflexivity. }
  apply mapM_Forall2 in Hout. fold keeps in Hout.
  assert (Hf : Forall (fun r' => exists t, endTime r' = TAware US_Central t) (filter keeps d3)).
  { apply Forall_forall. intros x Hx. apply filter_In in Hx.
    rewrite Forall_forall in Haware. apply Haware. tauto. }
  clear -Hout Hf. induction Hout as [|r c l l' Hrc _ IH]; constructor.
  - inversion Hf as [|? ? [t Ht] _]; subst.
    apply add_derived_inv in Hrc. destruct Hrc as [w [Hw ->]].
    rewrite Ht in Hw. simpl in Hw. injection Hw as <-.
    exists t. split; [exact Ht|reflexivity].
  - apply IH. inversion Hf; assumption.
Qed.


(** ** Counting: the table built by [tally] *)

Section CountingFacts.

Context {K : Type} (eqb : K -> K -> bool).
Hypothesis eqb_spec : forall x y, reflect (x = y) (eqb x y).

Lemma eqb_refl x : eqb x x = true.
Proof. destruct (eqb_spec x x); congruence. Qed.

Lemma eqb_sym x y : eqb x y = eqb y x.
Proof. destruct (eqb_spec x y), (eqb_spec y x); congruence. Qed.

Lemma eqb_neq x y : x <> y -> eqb x y = false.
Proof. destruct (eqb_spec x y); congruence. Qed.

Lemma mem_spec k l : mem eqb k l = true <-> In k l.
Proof.
  unfold mem. rewrite existsb_exists. split.
  - intros [x [Hx E]]. destruct (eqb_spec k x); [subst; exact Hx|discriminate].
  - intros H. exists k. split; [exact H|apply eqb_refl].
Qed.

Lemma mem_false k l : mem eqb k l = false <-> ~ In k l.
Proof.
  rewrite <- mem_spec. destruct (mem eqb k l); split; congruence.
Qed.

Lemma occurrences_nonneg k col : 0 <= occurrences eqb k col.
Proof. induction col as [|x xs IH]; simpl; [lia|]. destruct (eqb k x); lia. Qed.

Lemma occurrences_pos k col : In k col <-> 0 < occurrences eqb k col.
Proof.
  induction col as [|x xs IH]; simpl; [split; [tauto|lia]|].
  pose proof (occurrences_nonneg k xs).
  destruct (eqb_spec k x) as [->|Hne].
  - split; [lia|auto].
  - split.
    + intros [E|Hin]; [congruence|]. apply IH in Hin. lia.
    + intros Hpos. right. apply IH. lia.
Qed.

Lemma occurrences_zero k col : ~ In k col -> occurrences eqb k col = 0.
Proof.
  intros H. pose proof (occurrences_nonneg k col).
  destruct (Z.eq_dec (occurrences eqb k col) 0) as [E|E]; [exact E|].
  exfalso. apply H. apply occurrences_pos. lia.
Qed.

Lemma filter_comm {A : Type} (p q : A -> bool) (l : list A) :
  filter p (filter q l) = filter q (filter p l).
Proof.
  induction l as [|x xs IH]; simpl; [reflexivity|].
  destruct (p x) eqn:Ep, (q x) eqn:Eq; simpl; rewrite ?Ep, ?Eq, IH; reflexivity.
Qed.

Lemma filter_all {A : Type} (p : A -> bool) (l : list A) :
  (forall x, In x l -> p x = true) -> filter p l = l.
Proof.
  induction l as [|x xs IH]; simpl; intros H; [reflexivity|].
  rewrite (H x (or_introl eq_refl)). rewrite IH; [reflexivity|]. intros y Hy. apply H. auto.
Qed.

Lemma first_seen_In k col : In k (first_seen eqb col) <-> In k col.
Proof.
  induction col as [|x xs IH]; simpl; [tauto|].
  rewrite filter_In, IH. destruct (eqb_spec x k) as [->|Hne]; simpl.
  - split; [intros [?|[? ?]]; auto; discriminate | auto].
  - split; [intros [?|[? ?]]; auto | intros [?|?]; [congruence|auto]].
Qed.

Lemma first_seen_NoDup col : NoDup (first_seen eqb col).
Proof.
  induction col as [|x xs IH]; simpl; constructor.
  - rewrite filter_In. intros [_ E]. rewrite eqb_refl in E. discriminate.
  - apply NoDup_filter. exact IH.
Qed.

Lemma first_seen_filter p col :
  first_seen eqb (filter p col) = filter p (first_seen eqb col).
Proof.
  induction col as [|x xs IH]; simpl; [reflexivity|].
  destruct (p x) eqn:Ep; simpl.
  - rewrite ?Ep, IH. f_equal. apply filter_comm.
  - rewrite ?Ep, IH. rewrite filter_comm. symmetry.
    rewrite (filter_all (fun y => negb (eqb x y))); [reflexivity|].
    intros y Hy. apply filter_In in Hy. destruct Hy as [_ Hy].
    destruct (eqb_spec x y) as [->|]; [congruence|reflexivity].
Qed.

Lemma bump_present k tbl :
  In k (map fst tbl) -> NoDup (map fst tbl) ->
  bump eqb k tbl = map (fun e => if eqb k (fst e) then (fst e, snd e + 1) else e) tbl.
Proof.
  induction tbl as [|[k' c] rest IH]; simpl; intros Hin Hnd; [tauto|].
  inversion Hnd as [|? ? Hnot Hrest]; subst.
  destruct (eqb_spec k k') as [->|Hne].
  - f_equal. symmetry. rewrite <- (map_id rest) at 2. apply map_ext_in.
    intros [k2 c2] H2. simpl. rewrite eqb_neq; [reflexivity|].
    intros ->. apply Hnot. apply in_map_iff. exists (k2, c2). auto.
  - f_equal. apply IH; [|exact Hrest]. destruct Hin; [congruence|assumption].
Qed.

Lemma bump_absent k tbl :
  ~ In k (map fst tbl) -> bump eqb k tbl = tbl ++ [(k, 1)].
Proof.
  induction tbl as [|[k' c] rest IH]; simpl; intros Hnot; [reflexivity|].
  rewrite eqb_neq by (intros ->; apply Hnot; auto). f_equal. apply IH. tauto.
Qed.

Lemma tally_from col : forall tbl,
  NoDup (map fst tbl) ->
  fold_left (fun t k => bump eqb k t) col tbl =
  map (fun e => (fst e, snd e + occurrences eqb (fst e) col)) tbl ++
  map (fun k => (k, occurrences eqb k col))
      (first_seen eqb (filter (fun k => negb (mem eqb k (map fst tbl))) col)).
Proof.
  induction col as [|x xs IH]; intros tbl Hnd; simpl.
  - rewrite app_nil_r. rewrite <- (map_id tbl) at 1. apply map_ext.
    intros [k c]. simpl. f_equal. lia.
  - destruct (mem eqb x (map fst tbl)) eqn:Em; simpl.
    + apply mem_spec in Em. rewrite (bump_present x tbl Em Hnd).
      set (inc := fun e : K * Z => if eqb x (fst e) then (fst e, snd e + 1) else e).
      assert (Hk : map fst (map inc tbl) = map fst tbl).
      { rewrite map_map. apply map_ext. intros [k c]. unfold inc. simpl.
        destruct (eqb x k); reflexivity. }
      rewrite IH by (rewrite Hk; exact Hnd). rewrite Hk. f_equal.
      * rewrite map_map. apply map_ext. intros [k c]. unfold inc. simpl.
        rewrite (eqb_sym k x). destruct (eqb x k); cbn [fst snd]; apply f_equal; lia.
      * apply map_ext_in. intros k Hk'. apply (proj1 (first_seen_In _ _)) in Hk'.
        apply filter_In in Hk'. destruct Hk' as [_ Hk'].
        rewrite eqb_neq; [reflexivity|]. intros ->.
        apply mem_spec in Em. rewrite Em in Hk'. discriminate.
    + apply mem_false in Em. rewrite (bump_absent x tbl Em).
      assert (Hnd' : NoDup (map fst (tbl ++ [(x, 1)]))).
      { rewrite map_app. simpl. apply NoDup_app; [exact Hnd| |].
        - constructor; [simpl; tauto|constructor].
        - intros a Ha [<-|[]]. exact (Em Ha). }
      rewrite IH by exact Hnd'. rewrite map_app. simpl. rewrite <- app_assoc. simpl.
      f_equal.
      * apply map_ext_in. intros [k c] Hk. simpl. rewrite eqb_neq; [reflexivity|].
        intros ->. apply Em. apply in_map_iff. exists (x, c). auto.
      * rewrite eqb_refl. f_equal.
        assert (Hf : filter (fun k => negb (mem eqb k (map fst (tbl ++ [(x, 1)])))) xs =
                     filter (fun y => negb (eqb x y))
                            (filter (fun k => negb (mem eqb k (map fst tbl))) xs)).
        { clear -eqb_spec. induction xs as [|y ys IHy]; simpl; [reflexivity|].
          rewrite map_app. unfold mem at 1. rewrite existsb_app. simpl.
          fold (mem eqb y (map fst tbl)). rewrite orb_false_r, (eqb_sym y x).
          rewrite map_app in IHy.
          destruct (mem eqb y (map fst tbl)); simpl; [exact IHy|].
          destruct (eqb x y); simpl; [exact IHy|f_equal; exact IHy]. }
        rewrite Hf, first_seen_filter.
        apply map_ext_in. intros k Hk. apply filter_In in Hk. destruct Hk as [_ Hk].
        rewrite (eqb_sym k x). destruct (eqb x k); [discriminate|reflexivity].
Qed.

(** The table lists the distinct values in first-seen order, each with
    its number of occurrences. *)
Lemma tally_spec col :
  tally eqb col = map (fun k => (k, occurrences eqb k col)) (first_seen eqb col).
Proof.
  unfold tally. rewrite tally_from by constructor. simpl.
  rewrite filter_all; [reflexivity|]. intros; reflexivity.
Qed.

End CountingFacts.

(** ** Counting: the sort by count *)

Section SortFacts.

Context {K : Type}.

Lemma insert_desc_perm (x : K * Z) tbl : Permutation (insert_desc x tbl) (x :: tbl).
Proof.
  induction tbl as [|y rest IH]; simpl; [apply Permutation_refl|].
  destruct (snd x <? snd y); [|apply Permutation_refl].
  eapply Permutation_trans; [apply perm_skip; exact IH|apply perm_swap].
Qed.

Lemma sort_values_desc_perm (tbl : list (K * Z)) : Permutation (sort_values_desc tbl) tbl.
Proof.
  induction tbl as [|x rest IH]; simpl; [constructor|].
  eapply Permutation_trans; [apply insert_desc_perm|apply perm_skip; exact IH].
Qed.

Lemma insert_desc_sorted (x : K * Z) tbl :
  by_falling_count tbl -> by_falling_count (insert_desc x tbl).
Proof.
  unfold by_falling_count. induction 1 as [|y rest Hs IH Hy]; simpl.
  - constructor; constructor.
  - destruct (snd x <? snd y) eqn:E.
    + apply Z.ltb_lt in E. constructor; [exact IH|].
      apply Forall_forall. intros z Hz.
      apply (Permutation_in _ (insert_desc_perm x rest)) in Hz.
      destruct Hz as [<-|Hz]; [lia|]. rewrite Forall_forall in Hy. apply Hy, Hz.
    + apply Z.ltb_ge in E. constructor; [constructor; assumption|].
      constructor; [exact E|]. eapply Forall_impl; [|exact Hy]. simpl. intros; lia.
Qed.

Lemma sort_values_desc_sorted (tbl : list (K * Z)) : by_falling_count (sort_values_desc tbl).
Proof.
  induction tbl as [|x rest IH]; simpl; [constructor|].
  apply insert_desc_sorted. exact IH.
Qed.



End SortFacts.

Lemma insert_by_index_perm x tbl : Permutation (insert_by_index x tbl) (x :: tbl).
Proof.
  induction tbl as [|y rest IH]; simpl; [apply Permutation_refl|].
  destruct (fst y <? fst x); [|apply Permutation_refl].
  eapply Permutation_trans; [apply perm_skip; exact IH|apply perm_swap].
Qed.

Lemma sort_index_perm tbl : Permutation (sort_index tbl) tbl.
Proof.
  induction tbl as [|x rest IH]; simpl; [constructor|].
  eapply Permutation_trans; [apply insert_by_index_perm|apply perm_skip; exact IH].
Qed.

Lemma insert_by_index_sorted x tbl :
  ~ In (fst x) (map fst tbl) -> by_rising_index tbl -> by_rising_index (insert_by_index x tbl).
Proof.
  unfold by_rising_index. intros Hx Hs. induction Hs as [|y rest Hs IH Hy]; simpl.
  - constructor; constructor.
  - simpl in Hx. destruct (fst y <? fst x) eqn:E.
    + apply Z.ltb_lt in E. constructor; [apply IH; tauto|].
      apply Forall_forall. intros z Hz.
      apply (Permutation_in _ (insert_by_index_perm x rest)) in Hz.
      destruct Hz as [<-|Hz]; [lia|]. rewrite Forall_forall in Hy. apply Hy, Hz.
    + apply Z.ltb_ge in E. assert (fst x < fst y) by lia.
      constructor; [constructor; assumption|].
      constructor; [assumption|]. eapply Forall_impl; [|exact Hy]. simpl. intros; lia.
Qed.

Lemma sort_index_sorted tbl : NoDup (map fst tbl) -> by_rising_index (sort_index tbl).
Proof.
  induction tbl as [|x rest IH]; simpl; intros Hnd; [constructor|].
  inversion Hnd as [|? ? Hx Hrest]; subst.
  apply insert_by_index_sorted; [|apply IH; exact Hrest].
  intros Hin. apply Hx. apply in_map_iff in Hin. destruct Hin as [e [He Hin]].
  apply in_map_iff. exists e. split; [exact He|].
  apply (Permutation_in _ (sort_index_perm rest)). exact Hin.
Qed.

(** ** Counting: [value_counts] and what is read from it *)

Section ValueCountsFacts.

Context {K : Type} (eqb : K -> K -> bool).
Hypothesis eqb_spec : forall x y, reflect (x = y) (eqb x y).

Let counted (col : list K) : list (K * Z) :=
  map (fun k => (k, occurrences eqb k col)) (first_seen eqb col).

Lemma value_counts_perm col : Permutation (value_counts eqb col) (counted col).
Proof.
  unfold value_counts, counted. rewrite (tally_spec eqb eqb_spec).
  apply sort_values_desc_perm.
Qed.

Lemma value_counts_In k c col :
  In (k, c) (value_counts eqb col) <-> In k col /\ c = occurrences eqb k col.
Proof.
  split.
  - intros H. apply (Permutation_in _ (value_counts_perm col)) in H.
    apply in_map_iff in H. destruct H as [k' [E Hk]]. injection E as -> <-.
    split; [|reflexivity]. apply (first_seen_In eqb eqb_spec). exact Hk.
  - intros [Hk ->]. apply (Permutation_in _ (Permutation_sym (value_counts_perm col))).
    apply in_map_iff. exists k. split; [reflexivity|].
    apply (first_seen_In eqb eqb_spec). exact Hk.
Qed.

Lemma value_counts_keys col :
  Permutation (map fst (value_counts eqb col)) (first_seen eqb col).
Proof.
  eapply Permutation_trans; [apply Permutation_map, value_counts_perm|].
  unfold counted. rewrite map_map. simpl. rewrite map_id. apply Permutation_refl.
Qed.

Lemma value_counts_NoDup col : NoDup (map fst (value_counts eqb col)).
Proof.
  eapply Permutation_NoDup; [apply Permutation_sym, value_counts_keys|].
  apply (first_seen_NoDup eqb eqb_spec).
Qed.

Lemma value_counts_length col :
  List.length (value_counts eqb col) = List.length (first_seen eqb col).
Proof.
  rewrite <- (length_map fst). apply Permutation_length, value_counts_keys.
Qed.

Lemma value_counts_sorted col : by_falling_count (value_counts eqb col).
Proof. apply sort_values_desc_sorted. Qed.


Lemma lookup_In k c (tbl : list (K * Z)) :
  NoDup (map fst tbl) -> In (k, c) tbl -> lookup eqb k tbl = Some c.
Proof.
  induction tbl as [|[k' c'] rest IH]; simpl; intros Hnd Hin; [tauto|].
  inversion Hnd as [|? ? Hnot Hrest]; subst.
  destruct Hin as [E|Hin].
  - injection E as -> ->. rewrite (eqb_refl eqb eqb_spec). reflexivity.
  - rewrite (eqb_neq eqb eqb_spec).
    + apply IH; assumption.
    + intros ->. apply Hnot. apply in_map_iff. exists (k', c). auto.
Qed.

Lemma lookup_absent k (tbl : list (K * Z)) :
  ~ In k (map fst tbl) -> lookup eqb k tbl = None.
Proof.
  induction tbl as [|[k' c'] rest IH]; simpl; intros Hnot; [reflexivity|].
  rewrite (eqb_neq eqb eqb_spec) by (intros ->; apply Hnot; auto).
  apply IH. tauto.
Qed.

(** Reading one label from the counts: the number of occurrences when the
    value occurs, nothing when it does not. *)
Lemma lookup_value_counts k col :
  lookup eqb k (value_counts eqb col) =
  if mem eqb k col then Some (occurrences eqb k col) else None.
Proof.
  destruct (mem eqb k col) eqn:E.
  - apply (mem_spec eqb eqb_spec) in E. apply lookup_In; [apply value_counts_NoDup|].
    apply value_counts_In. split; [exact E|reflexivity].
  - apply (mem_false eqb eqb_spec) in E. apply lookup_absent. intros H. apply E.
    apply in_map_iff in H. destruct H as [[k' c] [Hk Hin]]. simpl in Hk. subst k'.
    apply value_counts_In in Hin. tauto.
Qed.

End ValueCountsFacts.

Lemma string_eqb_spec (x y : string) : reflect (x = y) (String.eqb x y).
Proof. apply String.eqb_spec. Qed.

Lemma Z_eqb_spec (x y : Z) : reflect (x = y) (Z.eqb x y).
Proof. apply Z.eqb_spec. Qed.

(** ** [clean_data]: the rows it returns *)







Lemma head_In {A : Type} (n : nat) (s : list A) (x : A) : In x (head n s) -> In x s.
Proof.
  unfold head. intros H. rewrite <- (firstn_skipn n s). apply in_or_app. left. exact H.
Qed.




(** ** Time zone conversion *)




Lemma hour_of_range w : 0 <= hour_of w <= 23.
Proof. unfold hour_of, secs_per_day. Z.div_mod_to_equations. lia. Qed.



(** ** Top lists *)






Example top_counts_ties_example :
  top_counts 3 ["x"; "b"; "c"; "b"; "c"; "a"; "a"] = [("b", 2); ("c", 2); ("a", 2)] /\
  top_counts 9 ["x"; "b"; "c"; "b"] = [("b", 2); ("x", 1); ("c", 1)].
Proof. split; reflexivity. Qed.

(** ** The counts by hour of the day *)

Lemma NoDup_bounded_length (l : list Z) (n : nat) :
  NoDup l -> (forall x, In x l -> 0 <= x < Z.of_nat n) -> (List.length l <= n)%nat.
Proof.
  intros Hnd Hb.
  replace n with (List.length (map Z.of_nat (seq 0 n))) at 1
    by (rewrite length_map, length_seq; reflexivity).
  apply NoDup_incl_length; [exact Hnd|].
  intros x Hx. apply in_map_iff. exists (Z.to_nat x).
  specialize (Hb x Hx). split; [lia|]. apply in_seq. lia.
Qed.

Lemma clean_data_hours df df' out :
  clean_data df = (df', Ok out) -> Forall (fun c => 0 <= hour c <= 23) out.
Proof.
  intros H. apply clean_data_inv in H. destruct H as [_ Hd].
  induction Hd as [|r c l l' [t [_ ->]] _ IH]; constructor; [|exact IH].
  simpl. apply hour_of_range.
Qed.

(** The frame returned for [sample_frame], used to exhibit concrete
    outputs of the tabs. *)
Lemma clean_data_sample :
  clean_data sample_frame =
  ([ mkRaw (TAware US_Central 1709334000) "A" "T1" 200000;
     mkRaw (TAware US_Central 1709341200) "B" "T2" 10000;
     mkRaw (TAware US_Central 1709344800) "B" "T3" 30000;
     mkRaw (TAware US_Central 1720094400) "C" "T4" 30001 ],
   Ok sample_cleaned).
Proof. vm_compute. reflexivity. Qed.

(** C4 as stated fails: the hour counts of the frame cleaned from
    [sample_frame] have two entries, for hours 7 and 17, not twenty-four. *)
Lemma hourly_counts_not_zero_filled :
  exists df' out,
    clean_data sample_frame = (df', Ok out) /\
    hourly_counts out = [(7, 1); (17, 1)] /\
    List.length (hourly_counts out) <> 24%nat /\
    ~ In (0, 0) (hourly_counts out).
Proof.
  eexists. eexists. split; [exact clean_data_sample|].
  split; [reflexivity|]. split; [discriminate|].
  simpl. intros [E|[E|[]]]; discriminate.
Qed.

(** C4, amended.  For every frame returned by [clean_data], the hour counts
    have one entry for each hour of the day in which some row falls and no
    entry for any other hour: the hours are between 0 and 23 and rise
    strictly, each count is the number of rows of that hour and is at least
    one, and there are as many entries as distinct hours, at most 24. *)
Theorem hourly_counts_lists_hours_present (raw raw' : DataFrame) (df : CanonTable)
    (H : clean_data raw = (raw', Ok df)) :
  by_rising_index (hourly_counts df) /\
  (forall h c, In (h, c) (hourly_counts df) <->
               In h (hour_col df) /\ c = occurrences Z.eqb h (hour_col df)) /\
  (forall h c, In (h, c) (hourly_counts df) -> 0 <= h <= 23 /\ 1 <= c) /\
  (forall h, ~ In h (hour_col df) -> ~ In h (map fst (hourly_counts df))) /\
  List.length (hourly_counts df) = List.length (first_seen Z.eqb (hour_col df)) /\
  (List.length (hourly_counts df) <= 24)%nat.
Proof.
  pose proof (clean_data_hours _ _ _ H) as Hh. rewrite Forall_forall in Hh.
  pose proof (sort_index_perm (value_counts Z.eqb (hour_col df))) as Hp. fold (hourly_counts df) in Hp.
  pose proof (value_counts_NoDup _ Z_eqb_spec (hour_col df)) as Hnd.
  assert (Hin : forall h c, In (h, c) (hourly_counts df) <->
                            In h (hour_col df) /\ c = occurrences Z.eqb h (hour_col df)).
  { intros h c. rewrite <- (value_counts_In _ Z_eqb_spec). split; intros Hx.
    - exact (Permutation_in _ Hp Hx).
    - exact (Permutation_in _ (Permutation_sym Hp) Hx). }
  assert (Hrange : forall h, In h (hour_col df) -> 0 <= h <= 23).
  { intros h Hx. unfold hour_col in Hx. apply in_map_iff in Hx.
    destruct Hx as [c [<- Hc]]. apply Hh, Hc. }
  assert (Hkeys : NoDup (map fst (hourly_counts df))).
  { eapply Permutation_NoDup; [apply Permutation_map, Permutation_sym, Hp|exact Hnd]. }
  split; [apply sort_index_sorted; exact Hnd|]. split; [exact Hin|]. split.
  { intros h c Hx. apply Hin in Hx. destruct Hx as [Hx ->]. split; [apply Hrange, Hx|].
    apply (occurrences_pos _ Z_eqb_spec) in Hx. lia. }
  split.
  { intros h Hno Hx. apply in_map_iff in Hx. destruct Hx as [[h' c] [E Hx]]. simpl in E. subst h'.
    apply Hin in Hx. tauto. }
  split.
  { rewrite (Permutation_length Hp). apply (value_counts_length _ Z_eqb_spec). }
  rewrite <- (length_map fst). apply NoDup_bounded_length; [exact Hkeys|].
  intros h Hx. apply in_map_iff in Hx. destruct Hx as [[h' c] [E Hx]]. simpl in E. subst h'.
  apply Hin in Hx. destruct Hx as [Hx _]. apply Hrange in Hx. lia.
Qed.

Lemma hourly_counts_lists_hours_present_witness :
  exists raw' df,
    clean_data sample_frame = (raw', Ok df) /\
    by_rising_index (hourly_counts df) /\
    (List.length (hourly_counts df) <= 24)%nat.
Proof.
  eexists. eexists. split; [exact clean_data_sample|]. split.
  - exact (proj1 (hourly_counts_lists_hours_present sample_frame _ _ clean_data_sample)).
  - exact (proj2 (proj2 (proj2 (proj2 (proj2
      (hourly_counts_lists_hours_present sample_frame _ _ clean_data_sample)))))).
Defined.

(** ** The counts by day of the week *)

(** C5 as stated fails: in the frame cleaned from [sample_frame] only
    Thursday and Friday occur, and the other five days carry the missing
    value, not a count of zero. *)
Lemma daily_counts_missing_not_zero :
  exists df' out,
    clean_data sample_frame = (df', Ok out) /\
    out <> [] /\
    daily_counts out =
      [ ("Monday", None); ("Tuesday", None); ("Wednesday", None);
        ("Thursday", Some 1); ("Friday", Some 1);
        ("Saturday", None); ("Sunday", None) ] /\
    ~ In ("Monday", Some 0) (daily_counts out).
Proof.
  eexists. eexists. split; [exact clean_data_sample|].
  split; [discriminate|]. split; [reflexivity|].
  simpl. intros H. repeat (destruct H as [H|H]; [discriminate|]). exact H.
Qed.

(** C5, amended.  For every frame, empty or not, the day counts have
    exactly seven entries labelled Monday to Sunday in that order; a day on
    which some row falls carries the number of those rows, which is at least
    one, and a day on which no row falls carries the missing value; no
    entry carries a count of zero. *)
Theorem daily_counts_seven_days_monday_first (df : CanonTable) :
  map fst (daily_counts df) =
    ["Monday"; "Tuesday"; "Wednesday"; "Thursday"; "Friday"; "Saturday"; "Sunday"] /\
  List.length (daily_counts df) = 7%nat /\
  (forall d v, In (d, v) (daily_counts df) ->
     (In d (day_col df) /\ v = Some (occurrences String.eqb d (day_col df)) /\
      1 <= occurrences String.eqb d (day_col df))
     \/ (~ In d (day_col df) /\ v = None)) /\
  (forall d, ~ In (d, Some 0) (daily_counts df)) /\
  daily_counts [] = map (fun d => (d, None)) day_names.
Proof.
  assert (Hv : forall d v, In (d, v) (daily_counts df) ->
     (In d (day_col df) /\ v = Some (occurrences String.eqb d (day_col df)) /\
      1 <= occurrences String.eqb d (day_col df))
     \/ (~ In d (day_col df) /\ v = None)).
  { intros d v Hin. unfold daily_counts, reindex in Hin. apply in_map_iff in Hin.
    destruct Hin as [d' [E _]]. injection E as -> <-.
    rewrite (lookup_value_counts _ string_eqb_spec).
    destruct (mem String.eqb d (day_col df)) eqn:Em.
    - apply (mem_spec _ string_eqb_spec) in Em. left. split; [exact Em|]. split; [reflexivity|].
      apply (occurrences_pos _ string_eqb_spec) in Em. lia.
    - apply (mem_false _ string_eqb_spec) in Em. right. split; [exact Em|reflexivity]. }
  split; [reflexivity|]. split; [reflexivity|]. split; [exact Hv|]. split; [|reflexivity].
  intros d Hin. apply Hv in Hin. destruct Hin as [[_ [E Hpos]]|[_ E]]; [|discriminate].
  injection E as E. lia.
Qed.

Lemma daily_counts_seven_days_monday_first_witness :
  ((In "Friday" (day_col sample_cleaned) /\
    Some 1 = Some (occurrences String.eqb "Friday" (day_col sample_cleaned)) /\
    1 <= occurrences String.eqb "Friday" (day_col sample_cleaned))
   \/ (~ In "Friday" (day_col sample_cleaned) /\ Some 1 = None)) /\
  ((In "Monday" (day_col sample_cleaned) /\
    None = Some (occurrences String.eqb "Monday" (day_col sample_cleaned)) /\
    1 <= occurrences String.eqb "Monday" (day_col sample_cleaned))
   \/ (~ In "Monday" (day_col sample_cleaned) /\ @None Z = None)).
Proof.
  split.
  - apply (proj1 (proj2 (proj2 (daily_counts_seven_days_monday_first sample_cleaned)))).
    simpl. auto 10.
  - apply (proj1 (proj2 (proj2 (daily_counts_seven_days_monday_first sample_cleaned)))).
    simpl. auto.
Defined.

(** ** The monthly series *)

Lemma fold_min_spec l : forall a,
  In (fold_left Z.min l a) (a :: l) /\
  forall x, In x (a :: l) -> fold_left Z.min l a <= x.
Proof.
  induction l as [|y ys IH]; intros a; simpl.
  - split; [auto|]. intros x [<-|[]]. lia.
  - destruct (IH (Z.min a y)) as [Hin Hle]. split.
    + destruct Hin as [E|Hin]; [|auto]. rewrite <- E. destruct (Z.min_spec a y) as [[_ ->]|[_ ->]]; auto.
    + intros x Hx. assert (Hm : fold_left Z.min ys (Z.min a y) <= Z.min a y) by (apply Hle; left; reflexivity).
      destruct Hx as [<-|[<-|Hx]]; [lia|lia|]. apply Hle. right. exact Hx.
Qed.

Lemma fold_max_spec l : forall a,
  In (fold_left Z.max l a) (a :: l) /\
  forall x, In x (a :: l) -> x <= fold_left Z.max l a.
Proof.
  induction l as [|y ys IH]; intros a; simpl.
  - split; [auto|]. intros x [<-|[]]. lia.
  - destruct (IH (Z.max a y)) as [Hin Hle]. split.
    + destruct Hin as [E|Hin]; [|auto]. rewrite <- E. destruct (Z.max_spec a y) as [[_ ->]|[_ ->]]; auto.
    + intros x Hx. assert (Hm : Z.max a y <= fold_left Z.max ys (Z.max a y)) by (apply Hle; left; reflexivity).
      destruct Hx as [<-|[<-|Hx]]; [lia|lia|]. apply Hle. right. exact Hx.
Qed.

Lemma month_label_rises i j : i < j -> month_before (month_label i) (month_label j).
Proof.
  unfold month_before, month_label. simpl. intros H. Z.div_mod_to_equations. lia.
Qed.

Lemma month_labels_sorted l :
  StronglySorted Z.lt l -> StronglySorted month_before (map month_label l).
Proof.
  induction 1 as [|m l _ IH Hm]; simpl; constructor; [exact IH|].
  apply Forall_forall. intros x Hx. apply in_map_iff in Hx. destruct Hx as [m' [<- Hm']].
  rewrite Forall_forall in Hm. apply month_label_rises. apply Hm, Hm'.
Qed.

Lemma month_span_In lo hi m : In m (month_span lo hi) <-> lo <= m <= hi.
Proof.
  unfold month_span. rewrite in_map_iff. split.
  - intros [i [<- Hi]]. apply in_seq in Hi. lia.
  - intros H. exists (Z.to_nat (m - lo)). split; [lia|]. apply in_seq. lia.
Qed.

Lemma month_span_sorted lo hi : StronglySorted Z.lt (month_span lo hi).
Proof.
  unfold month_span. generalize (Z.to_nat (hi - lo + 1)) as n. intros n.
  generalize 0%nat as s. induction n as [|n IH]; intros s; simpl; constructor.
  - apply IH.
  - apply Forall_forall. intros x Hx. apply in_map_iff in Hx. destruct Hx as [i [<- Hi]].
    apply in_seq in Hi. lia.
Qed.

Lemma datetime_index_reading c w : datetime_index c = Ok w -> w = local_reading c.
Proof. destruct c; simpl; intros H; [discriminate| |]; injection H as <-; reflexivity. Qed.

Lemma civil_month_range z : 1 <= snd (fst (civil_from_days z)) <= 12.
Proof.
  unfold civil_from_days. cbv zeta. cbn [fst snd].
  set (doe := z + 719468 - (z + 719468) / 146097 * 146097).
  assert (Hdoe : 0 <= doe < 146097) by (unfold doe; Z.div_mod_to_equations; lia).
  clearbody doe.
  set (yoe := (doe - doe / 1460 + doe / 36524 - doe / 146096) / 365).
  assert (Hd : 0 <= doe - (365 * yoe + yoe / 4 - yoe / 100) <= 365).
  { unfold yoe. Z.div_mod_to_equations. lia. }
  clearbody yoe.
  set (doy := doe - (365 * yoe + yoe / 4 - yoe / 100)) in *. clearbody doy.
  destruct ((5 * doy + 2) / 153 <? 10) eqn:E;
    [apply Z.ltb_lt in E | apply Z.ltb_ge in E]; Z.div_mod_to_equations; lia.
Qed.

(** The label of a row's bin is the year and month of its local reading. *)
Lemma month_label_of_index w : month_label (month_index w) = (year_of w, month_of w).
Proof.
  unfold month_label, month_index. pose proof (civil_month_range (w / secs_per_day)) as Hm.
  fold (date_of w) in Hm. fold (month_of w) in Hm.
  f_equal; Z.div_mod_to_equations; lia.
Qed.

Lemma monthly_listening_months df ws :
  mapM (fun r => datetime_index (endTime (base r))) df = Ok ws ->
  map month_index ws = map row_month df.
Proof.
  intros H. apply mapM_Forall2 in H.
  induction H as [|r w l l' Hr _ IH]; simpl; [reflexivity|].
  rewrite IH. unfold row_month. rewrite (datetime_index_reading _ _ Hr). reflexivity.
Qed.

Lemma clean_data_gap :
  clean_data gap_frame =
  ([ mkRaw (TAware US_Central 1705341600) "A" "T1" 200000;
     mkRaw (TAware US_Central 1710957600) "B" "T2" 200000 ],
   Ok [ mkCanon (mkRaw (TAware US_Central 1705341600) "A" "T1" 200000) 12 "Monday";
        mkCanon (mkRaw (TAware US_Central 1710957600) "B" "T2" 200000) 13 "Wednesday" ]).
Proof. vm_compute. reflexivity. Qed.

Lemma monthly_listening_gap :
  monthly_listening
    [ mkCanon (mkRaw (TAware US_Central 1705341600) "A" "T1" 200000) 12 "Monday";
      mkCanon (mkRaw (TAware US_Central 1710957600) "B" "T2" 200000) 13 "Wednesday" ]
  = Ok [((2024, 1), 1); ((2024, 2), 0); ((2024, 3), 1)].
Proof. vm_compute. reflexivity. Qed.

(** C3 as stated fails: with plays in January and March 2024 only, the
    series has an entry for February 2024 with count 0. *)
Lemma monthly_listening_fills_empty_months :
  exists df' out,
    clean_data gap_frame = (df', Ok out) /\
    map (fun c => month_label (row_month c)) out = [(2024, 1); (2024, 3)] /\
    monthly_listening out = Ok [((2024, 1), 1); ((2024, 2), 0); ((2024, 3), 1)].
Proof.
  eexists. eexists. split; [exact clean_data_gap|].
  split; [vm_compute; reflexivity|exact monthly_listening_gap].
Qed.

(** C3, amended.  For every frame on which the monthly series is computed,
    the series is empty when the frame is; otherwise it has one entry for
    every calendar month from the month of the earliest local timestamp to
    the month of the latest, in calendar order and without a gap, and each
    entry carries the number of rows whose local timestamp falls in that
    month - zero for a month in between in which no row falls.  A row's
    month is the year and month of its local reading. *)
Theorem monthly_listening_every_month_in_span (df : CanonTable)
    (series : list ((Z * Z) * Z)) (H : monthly_listening df = Ok series) :
  (df = [] -> series = []) /\
  (df <> [] ->
     exists lo hi,
       In lo (map row_month df) /\ In hi (map row_month df) /\
       (forall c, In c df -> lo <= row_month c <= hi) /\
       series = map (fun m => (month_label m, occurrences Z.eqb m (map row_month df)))
                    (month_span lo hi) /\
       (forall m, lo <= m <= hi ->
          In (month_label m, occurrences Z.eqb m (map row_month df)) series) /\
       (forall m, lo <= m <= hi -> ~ In m (map row_month df) ->
          In (month_label m, 0) series)) /\
  StronglySorted month_before (map fst series) /\
  (forall c, In c df ->
     month_label (row_month c) = (year_of (local_reading (endTime (base c))),
                                  month_of (local_reading (endTime (base c)))) /\
     In (month_label (row_month c)) (map fst series)).
Proof.
  unfold monthly_listening in H.
  destruct (mapM _ df) as [ws|e] eqn:Ews; simpl in H; [|discriminate].
  pose proof (monthly_listening_months _ _ Ews) as Hmonths. rewrite Hmonths in H.
  destruct df as [|c0 rest].
  { simpl in H. injection H as <-. split; [reflexivity|]. split; [congruence|].
    split; [constructor|]. intros c []. }
  simpl map in H. cbv zeta in H. injection H as <-.
  set (months := map row_month (c0 :: rest)).
  change (row_month c0 :: map row_month rest) with months.
  destruct (fold_min_spec (map row_month rest) (row_month c0)) as [Hlo_in Hlo].
  destruct (fold_max_spec (map row_month rest) (row_month c0)) as [Hhi_in Hhi].
  set (lo := fold_left Z.min (map row_month rest) (row_month c0)) in *.
  set (hi := fold_left Z.max (map row_month rest) (row_month c0)) in *.
  change (row_month c0 :: map row_month rest) with months in *.
  assert (Hbound : forall c, In c (c0 :: rest) -> lo <= row_month c <= hi).
  { intros c Hc. assert (In (row_month c) months) by (apply in_map; exact Hc).
    split; [apply Hlo|apply Hhi]; assumption. }
  assert (Hall : forall m, lo <= m <= hi ->
            In (month_label m, occurrences Z.eqb m months)
               (map (fun m => (month_label m, occurrences Z.eqb m months)) (month_span lo hi))).
  { intros m Hm. apply in_map_iff. exists m. split; [reflexivity|]. apply month_span_In. exact Hm. }
  split; [discriminate|]. split; [|split].
  - intros _. exists lo, hi. split; [exact Hlo_in|]. split; [exact Hhi_in|].
    split; [exact Hbound|]. split; [reflexivity|]. split; [exact Hall|].
    intros m Hm Hno. pose proof (Hall m Hm) as Hin.
    rewrite (occurrences_zero _ Z_eqb_spec m months Hno) in Hin. exact Hin.
  - rewrite map_map. simpl. apply month_labels_sorted, month_span_sorted.
  - intros c Hc. split; [apply month_label_of_index|].
    rewrite map_map. simpl. apply in_map. apply month_span_In. apply Hbound, Hc.
Qed.

Lemma monthly_listening_every_month_in_span_witness :
  exists df' out series,
    clean_data gap_frame = (df', Ok out) /\
    monthly_listening out = Ok series /\
    StronglySorted month_before (map fst series) /\
    List.length series = 3%nat.
Proof.
  eexists. eexists. eexists. split; [exact clean_data_gap|].
  split; [exact monthly_listening_gap|]. split; [|reflexivity].
  exact (proj1 (proj2 (proj2 (monthly_listening_every_month_in_span _ _ monthly_listening_gap)))).
Defined.

(** ** The artist deep dive *)

Lemma value_counts_nil_iff col : value_counts String.eqb col = [] <-> col = [].
Proof.
  split.
  - intros H. destruct col as [|x xs]; [reflexivity|].
    assert (Hin : In (x, occurrences String.eqb x (x :: xs)) (value_counts String.eqb (x :: xs))).
    { apply (value_counts_In _ string_eqb_spec). split; [left; reflexivity|reflexivity]. }
    rewrite H in Hin. destruct Hin.
  - intros ->. reflexivity.
Qed.

Lemma artist_rows_absent a df : ~ In a (artist_col df) -> artist_rows a df = [].
Proof.
  unfold artist_rows, artist_col. induction df as [|c l IH]; simpl; intros H; [reflexivity|].
  destruct (String.eqb_spec (artistName (base c)) a) as [E|_]; [exfalso; auto|].
  apply IH. tauto.
Qed.

Lemma artist_rows_present a df : In a (artist_col df) -> artist_rows a df <> [].
Proof.
  unfold artist_rows, artist_col. intros H. apply in_map_iff in H. destruct H as [c [E Hc]].
  assert (Hin : In c (filter (fun r => String.eqb (artistName (base r)) a) df)).
  { apply filter_In. split; [exact Hc|]. rewrite E. apply String.eqb_refl. }
  intros Hnil. rewrite Hnil in Hin. destruct Hin.
Qed.

Lemma mapM_raise {A B : Type} (f : A -> result B) (l : list A) (e : PyError) :
  mapM f l = Raise e -> exists x, In x l /\ f x = Raise e.
Proof.
  induction l as [|x xs IH]; simpl; [discriminate|].
  destruct (f x) as [y|e'] eqn:Ex; simpl.
  - destruct (mapM f xs) as [ys|e''] eqn:Exs; simpl; [discriminate|].
    intros E. injection E as ->. destruct (IH eq_refl) as [x' [Hin Hx']].
    exists x'. auto.
  - intros E. injection E as ->. exists x. auto.
Qed.

Lemma monthly_listening_no_NoDataError df : monthly_listening df <> Raise NoDataError.
Proof.
  unfold monthly_listening. destruct (mapM _ df) as [ws|e] eqn:E; simpl.
  - destruct (map month_index ws); discriminate.
  - apply mapM_raise in E. destruct E as [r [_ Hr]].
    destruct (endTime (base r)); simpl in Hr; try discriminate.
    injection Hr as <-. discriminate.
Qed.

(** C7 as stated fails: on the empty frame - here the frame left when the
    duration filter removes the only row - the lookup of the top artist
    raises the generic [IndexError], which is not [NoDataError]; the other
    aggregations return empty results; and the deep dive for an artist that
    does not occur returns empty lists. *)
Lemma deep_dive_raises_index_error_not_no_data :
  clean_data [raw_row "2024-03-02 01:00:00" "B" "T2" 10000] =
    ([mkRaw (TAware US_Central 1709341200) "B" "T2" 10000], Ok []) /\
  top_artist_name [] = Raise IndexError /\
  artist_deep_dive [] = Raise IndexError /\
  artist_deep_dive [] <> Raise NoDataError /\
  total_ms [] = 0 /\ unique_songs [] = 0 /\ unique_artists [] = 0 /\
  monthly_listening [] = Ok [] /\ top_10_songs [] = [] /\ top_10_artists [] = [] /\
  hourly_counts [] = [] /\
  deep_dive_for "Nobody"
    [mkCanon (mkRaw (TAware US_Central 1709334000) "A" "T1" 200000) 17 "Friday"]
  = mkDeepDive "Nobody" [] [].
Proof.
  split; [vm_compute; reflexivity|].
  repeat split; try reflexivity. discriminate.
Qed.

(** C7, amended.  The lookup of the top artist, and with it the deep dive,
    fails exactly when the frame is empty, and then with [IndexError]; no
    aggregation ever raises [NoDataError].  On a frame that is not empty
    the lookup returns an artist of the frame that no other artist exceeds
    in number of rows, and the deep dive succeeds on that artist's rows,
    of which there is at least one.  For an artist that does not occur in
    the frame, the body of the deep dive returns an empty top list and empty
    hour counts. *)
Theorem deep_dive_fails_only_on_empty_frame (df : CanonTable) :
  (top_artist_name df = Raise IndexError <-> df = []) /\
  (artist_deep_dive df = Raise IndexError <-> df = []) /\
  top_artist_name df <> Raise NoDataError /\
  artist_deep_dive df <> Raise NoDataError /\
  monthly_listening df <> Raise NoDataError /\
  (df <> [] ->
     exists top,
       top_artist_name df = Ok top /\
       artist_deep_dive df = Ok (deep_dive_for top df) /\
       In top (artist_col df) /\
       artist_rows top df <> [] /\
       (forall a, occurrences String.eqb a (artist_col df)
                  <= occurrences String.eqb top (artist_col df))) /\
  (forall a, ~ In a (artist_col df) -> deep_dive_for a df = mkDeepDive a [] []).
Proof.
  unfold artist_deep_dive, top_artist_name.
  pose proof (value_counts_nil_iff (artist_col df)) as Hnil.
  pose proof (value_counts_sorted String.eqb (artist_col df)) as Hs.
  assert (Hcol : artist_col df = [] <-> df = []).
  { unfold artist_col. destruct df; simpl; split; congruence. }
  destruct (value_counts String.eqb (artist_col df)) as [|[top c] rest] eqn:Evc; simpl.
  - assert (Hdf : df = []) by (apply Hcol, Hnil; reflexivity).
    split; [tauto|]. split; [tauto|]. split; [discriminate|]. split; [discriminate|].
    split; [apply monthly_listening_no_NoDataError|]. split; [tauto|].
    intros a _. subst df. reflexivity.
  - assert (Hdf : df <> []).
    { intros E. apply Hcol, Hnil in E. discriminate. }
    split; [split; [discriminate|tauto]|]. split; [split; [discriminate|tauto]|].
    split; [discriminate|]. split; [discriminate|]. split.
    { apply monthly_listening_no_NoDataError. }
    split.
    + intros _. exists top.
      assert (Hin : In (top, c) (value_counts String.eqb (artist_col df)))
        by (rewrite Evc; left; reflexivity).
      apply (value_counts_In _ string_eqb_spec) in Hin. destruct Hin as [Htop Hc].
      split; [reflexivity|]. split; [reflexivity|]. split; [exact Htop|].
      split; [apply artist_rows_present, Htop|].
      intros a. destruct (in_dec string_dec a (artist_col df)) as [Ha|Ha].
      * assert (Hvc : In (a, occurrences String.eqb a (artist_col df)) ((top, c) :: rest)).
        { rewrite <- Evc. apply (value_counts_In _ string_eqb_spec). auto. }
        rewrite <- Hc. destruct Hvc as [E|Hvc]; [injection E as _ <-; lia|].
        unfold by_falling_count in Hs. inversion Hs as [|? ? _ Hall]; subst.
        rewrite Forall_forall in Hall. exact (Hall _ Hvc).
      * rewrite (occurrences_zero _ string_eqb_spec a _ Ha).
        apply occurrences_nonneg.
    + intros a Ha. unfold deep_dive_for. rewrite (artist_rows_absent a df Ha). reflexivity.
Qed.

Lemma deep_dive_fails_only_on_empty_frame_witness :
  (exists top,
     top_artist_name sample_cleaned = Ok top /\
     artist_deep_dive sample_cleaned = Ok (deep_dive_for top sample_cleaned) /\
     In top (artist_col sample_cleaned) /\
     artist_rows top sample_cleaned <> [] /\
     (forall a, occurrences String.eqb a (artist_col sample_cleaned)
                <= occurrences String.eqb top (artist_col sample_cleaned))) /\
  deep_dive_for "B" sample_cleaned = mkDeepDive "B" [] [].
Proof.
  split.
  - apply (proj1 (proj2 (proj2 (proj2 (proj2 (proj2
             (deep_dive_fails_only_on_empty_frame sample_cleaned))))))).
    discriminate.
  - apply (proj2 (proj2 (proj2 (proj2 (proj2 (proj2
             (deep_dive_fails_only_on_empty_frame sample_cleaned))))))).
    simpl. intros [E|[E|[]]]; discriminate.
Defined.

(** ** What [clean_data] does to the frame it is given *)








(** ** Several StreamingHistory files *)





Section Merging.

Variables (Doc SearchFrame : Type).
Variable pd_read_json : string -> result DataFrame.
Variable json_load : string -> result Doc.
Variable pd_read_json_search : string -> result SearchFrame.

Let run := process Doc SearchFrame pd_read_json json_load pd_read_json_search.




End Merging.


(** ** The groups of files and what [load_data] reads *)

Lemma select_from_spec token files : forall start i,
  In i (select_from token start files) <->
  exists f, (start <= i)%nat /\ nth_error files (i - start) = Some f /\
            contains token (name f) = true.
Proof.
  induction files as [|f fs IH]; intros start i; simpl.
  - split; [intros []|]. intros [f [_ [H _]]]. destruct (i - start)%nat; discriminate.
  - assert (Hrest : In i (select_from token (S start) fs) <->
                    exists g, (S start <= i)%nat /\ nth_error fs (i - S start) = Some g /\
                              contains token (name g) = true) by apply IH.
    destruct (contains token (name f)) eqn:Ec; simpl; rewrite ?Hrest; split.
    + intros [<-|[g [Hle [Hn Hc]]]].
      * exists f. rewrite Nat.sub_diag. simpl. auto.
      * exists g. split; [lia|]. split; [|exact Hc].
        replace (i - start)%nat with (S (i - S start)) by lia. exact Hn.
    + intros [g [Hle [Hn Hc]]]. destruct (Nat.eq_dec start i) as [->|Hne]; [left; reflexivity|].
      right. exists g. split; [lia|]. split; [|exact Hc].
      replace (i - start)%nat with (S (i - S start)) in Hn by lia. exact Hn.
    + intros [g [Hle [Hn Hc]]]. exists g. split; [lia|]. split; [|exact Hc].
      replace (i - start)%nat with (S (i - S start)) by lia. exact Hn.
    + intros [g [Hle [Hn Hc]]]. destruct (Nat.eq_dec start i) as [->|Hne].
      * rewrite Nat.sub_diag in Hn. simpl in Hn. injection Hn as <-. congruence.
      * exists g. split; [lia|]. split; [|exact Hc].
        replace (i - start)%nat with (S (i - S start)) in Hn by lia. exact Hn.
Qed.

(** A file is in a group exactly when its name contains the group's token. *)
Lemma group_spec c files i :
  In i (group c files) <->
  exists f, nth_error files i = Some f /\ contains (token c) (name f) = true.
Proof.
  unfold group, select. rewrite select_from_spec. rewrite Nat.sub_0_r.
  split; intros [f H]; exists f; [tauto|]. split; [lia|tauto].
Qed.

Lemma select_from_sorted token files : forall start,
  StronglySorted lt (select_from token start files) /\
  Forall (fun i => (start <= i)%nat) (select_from token start files).
Proof.
  induction files as [|f fs IH]; intros start; simpl; [split; constructor|].
  destruct (IH (S start)) as [Hs Hb].
  assert (Hb' : Forall (fun i => (start <= i)%nat) (select_from token (S start) fs)).
  { eapply Forall_impl; [|exact Hb]. simpl. intros; lia. }
  destruct (contains token (name f)); [|split; assumption].
  split; constructor; auto.
Qed.

Lemma group_NoDup c files : NoDup (group c files).
Proof.
  unfold group, select. destruct (select_from_sorted (token c) files 0) as [Hs _].
  induction Hs as [|i l _ IH Hi]; constructor; [|exact IH].
  intros Hin. rewrite Forall_forall in Hi. specialize (Hi i Hin). lia.
Qed.

Lemma drain_nth i : forall l j,
  nth j (drain i l) "" = if Nat.eqb i j then "" else nth j l "".
Proof.
  induction i as [|i IH]; intros [|x xs] [|j]; simpl; try reflexivity.
  - destruct (Nat.eqb i j); [reflexivity|destruct j; reflexivity].
  - apply IH.
Qed.

Section Reads.

Variables (Doc SearchFrame : Type).
Variable pd_read_json : string -> result DataFrame.
Variable json_load : string -> result Doc.
Variable pd_read_json_search : string -> result SearchFrame.

(** The reads made for the streaming history: the files up to and
    including the first that the decoder refuses, each read once, from its
    start, and left at its end. *)
Lemma streaming_reads idxs : forall s s' r,
  NoDup idxs ->
  smapM (read_streaming pd_read_json) idxs s = (s', r) ->
  exists done rest,
    idxs = done ++ rest /\
    reads s' = reads s ++ map (fun i => (i, Streaming, nth i (unread s) "")) done /\
    (forall j, nth j (unread s') "" =
               if existsb (Nat.eqb j) done then "" else nth j (unread s) "") /\
    (forall dfs, r = Ok dfs -> rest = []).
Proof.
  induction idxs as [|i idxs IH]; intros s s' r Hnd H.
  - simpl in H. unfold ret in H. injection H as <- <-. exists [], []. simpl.
    rewrite app_nil_r. repeat split; auto.
  - inversion Hnd as [|? ? Hi Hnd']; subst.
    simpl in H. unfold sbind at 1 in H. unfold read_streaming at 1 in H.
    unfold sbind at 1, read_file, lift in H.
    set (s1 := mkSession (drain i (unread s)) (reads s ++ [(i, Streaming, nth i (unread s) "")])) in *.
    destruct (pd_read_json (nth i (unread s) "")) as [y|e].
    + unfold sbind in H.
      destruct (smapM (read_streaming pd_read_json) idxs s1) as [s2 r2] eqn:E2.
      destruct (IH _ _ _ Hnd' E2) as [done [rest [Hsplit [Hreads [Hunread Hok]]]]].
      assert (Hs' : s' = s2) by (destruct r2; unfold ret in H; injection H as <- _; reflexivity).
      subst s'. exists (i :: done), rest. split; [simpl; f_equal; exact Hsplit|].
      split; [|split].
      * rewrite Hreads. unfold s1. simpl. rewrite <- app_assoc. simpl. do 2 f_equal.
        apply map_ext_in. intros j Hj. rewrite drain_nth.
        destruct (Nat.eqb_spec i j) as [->|_]; [|reflexivity].
        exfalso. apply Hi. rewrite Hsplit. apply in_or_app. auto.
      * intros j. rewrite Hunread. unfold s1. simpl. rewrite drain_nth, (Nat.eqb_sym j i).
        destruct (existsb (Nat.eqb j) done), (Nat.eqb i j); reflexivity.
      * intros dfs Hr. destruct r2 as [ys|e]; unfold ret in H; injection H as <-; [|discriminate].
        apply (Hok ys). reflexivity.
    + injection H as <- <-. exists [i], idxs. split; [reflexivity|]. split; [reflexivity|].
      split; [|discriminate].
      intros j. unfold s1. simpl. rewrite drain_nth, (Nat.eqb_sym j i).
      destruct (Nat.eqb i j); reflexivity.
Qed.


Let after_read (c : Category) (l : list nat) (s : Session) : Session :=
  match l with
  | [] => s
  | i :: _ => mkSession (drain i (unread s)) (reads s ++ [(i, c, nth i (unread s) "")])
  end.

Lemma streaming_phase (l : list nat) (s : Session) :
  match l with
  | [] => ret None
  | _ :: _ => df_list <- smapM (read_streaming pd_read_json) l ;;
              ret (Some (List.concat df_list))
  end s =
  (fst (smapM (read_streaming pd_read_json) l s),
   bind (snd (smapM (read_streaming pd_read_json) l s))
        (fun dl => Ok (match l with [] => None | _ :: _ => Some (List.concat dl) end))).
Proof.
  destruct l as [|i l]; [reflexivity|]. unfold sbind at 1.
  destruct (smapM (read_streaming pd_read_json) (i :: l) s) as [s1 [dl|e]]; reflexivity.
Qed.

Lemma wrapped_phase (l : list nat) (s : Session) :
  match l with
  | [] => ret None
  | i :: _ => d <- read_wrapped Doc json_load i ;; ret (Some d)
  end s =
  (after_read Wrapped l s,
   match l with
   | [] => Ok None
   | i :: _ => bind (json_load (nth i (unread s) "")) (fun d => Ok (Some d))
   end).
Proof.
  destruct l as [|i l]; [reflexivity|].
  unfold sbind, read_wrapped, read_file, lift, ret, after_read. simpl.
  destruct (json_load (nth i (unread s) "")); reflexivity.
Qed.

Lemma search_phase (l : list nat) (s : Session) :
  match l with
  | [] => ret None
  | i :: _ => d <- read_search SearchFrame pd_read_json_search i ;; ret (Some d)
  end s =
  (after_read Search l s,
   match l with
   | [] => Ok None
   | i :: _ => bind (pd_read_json_search (nth i (unread s) "")) (fun d => Ok (Some d))
   end).
Proof.
  destruct l as [|i l]; [reflexivity|].
  unfold sbind, read_search, read_file, lift, ret, after_read. simpl.
  destruct (pd_read_json_search (nth i (unread s) "")); reflexivity.
Qed.

Lemma after_read_reads c files s :
  reads (after_read c (group c files) s) =
  reads s ++ map (fun i => (i, c, nth i (unread s) "")) (first_of c files).
Proof.
  unfold after_read, first_of. destruct (group c files); simpl; [rewrite app_nil_r|]; reflexivity.
Qed.

Lemma after_read_unread c files s j :
  nth j (unread (after_read c (group c files) s)) "" =
  if existsb (Nat.eqb j) (first_of c files) then "" else nth j (unread s) "".
Proof.
  unfold after_read, first_of. destruct (group c files) as [|i l]; simpl; [reflexivity|].
  rewrite drain_nth, (Nat.eqb_sym j i), orb_false_r. reflexivity.
Qed.

Lemma load_data_log (files : list UploadedFile) s' r :
  load_data Doc SearchFrame pd_read_json json_load pd_read_json_search files (open_files files)
    = (s', r) ->
  (exists rest, planned_reads files = reads s' ++ rest) /\
  (forall d, r = Ok d -> reads s' = planned_reads files).
Proof.
  unfold load_data.
  change (select "StreamingHistory" files) with (group Streaming files).
  change (select "Wrapped" files) with (group Wrapped files).
  change (select "SearchQueries" files) with (group Search files).
  unfold sbind at 1. rewrite streaming_phase.
  destruct (smapM (read_streaming pd_read_json) (group Streaming files) (open_files files))
    as [s1 r1] eqn:E1.
  destruct (streaming_reads _ _ _ _ (group_NoDup Streaming files) E1)
    as [done [rest [Hsplit [Hreads [Hunread Hok]]]]].
  simpl fst. simpl snd. simpl in Hreads. unfold planned_reads.
  destruct r1 as [dl|e]; simpl.
  2:{ intros H. injection H as <- <-. split; [|discriminate].
      rewrite Hreads, Hsplit, map_app, <- app_assoc. eexists. reflexivity. }
  rewrite (Hok dl eq_refl), app_nil_r in Hsplit. subst done.
  unfold sbind at 1. rewrite wrapped_phase.
  set (s2 := after_read Wrapped (group Wrapped files) s1).
  assert (Hreads2 : reads s2 =
            map (fun i => (i, Streaming, nth i (map data files) "")) (group Streaming files) ++
            map (fun i => (i, Wrapped, text_after (group Streaming files) files i))
                (first_of Wrapped files)).
  { unfold s2. rewrite after_read_reads, Hreads. f_equal. apply map_ext. intros i.
    rewrite Hunread. reflexivity. }
  assert (Hunread2 : forall j, nth j (unread s2) "" =
            text_after (group Streaming files ++ first_of Wrapped files) files j).
  { intros j. unfold s2. rewrite after_read_unread, Hunread. unfold text_after.
    rewrite existsb_app. simpl.
    destruct (existsb (Nat.eqb j) (group Streaming files)),
             (existsb (Nat.eqb j) (first_of Wrapped files)); reflexivity. }
  clearbody s2.
  destruct (match group Wrapped files with
            | [] => Ok None
            | i :: _ => bind (json_load (nth i (unread s1) "")) (fun d => Ok (Some d))
            end) as [wr|e].
  2:{ intros H. injection H as <- <-. split; [|discriminate].
      rewrite Hreads2, app_assoc. eexists. reflexivity. }
  unfold sbind at 1. rewrite search_phase.
  set (s3 := after_read Search (group Search files) s2).
  assert (Hreads3 : reads s3 = planned_reads files).
  { unfold s3, planned_reads. rewrite after_read_reads, Hreads2, <- app_assoc. do 2 f_equal.
    apply map_ext. intros i. rewrite Hunread2. reflexivity. }
  clearbody s3. unfold planned_reads in Hreads3.
  destruct (match group Search files with
            | [] => Ok None
            | i :: _ => bind (pd_read_json_search (nth i (unread s2) "")) (fun d => Ok (Some d))
            end) as [se|e]; unfold ret; intros H; injection H as <- <-.
  - split; [exists []; rewrite app_nil_r; symmetry; exact Hreads3|]. intros; exact Hreads3.
  - split; [exists []; rewrite app_nil_r; symmetry; exact Hreads3|discriminate].
Qed.


Lemma first_of_In c files i :
  In i (first_of c files) <-> exists rest, group c files = i :: rest.
Proof.
  unfold first_of. destruct (group c files) as [|j l]; simpl.
  - split; [intros []|intros [rest Hr]; discriminate].
  - split; [intros [<-|[]]; eauto|intros [rest Hr]; injection Hr as <- _; auto].
Qed.

Lemma text_after_read before files i : In i before -> text_after before files i = "".
Proof.
  intros H. unfold text_after.
  assert (E : existsb (Nat.eqb i) before = true).
  { apply existsb_exists. exists i. split; [exact H|apply Nat.eqb_refl]. }
  rewrite E. reflexivity.
Qed.

Lemma planned_reads_In files i c text :
  In (i, c, text) (planned_reads files) ->
  In i (group c files) /\
  (c <> Streaming -> exists rest, group c files = i :: rest) /\
  (c <> Streaming -> In i (group Streaming files) -> text = "").
Proof.
  unfold planned_reads. intros H.
  apply in_app_or in H. destruct H as [H|H]; [|apply in_app_or in H; destruct H as [H|H]];
    apply in_map_iff in H; destruct H as [j [E Hj]]; injection E as -> <- <-.
  - split; [exact Hj|]. split; intros Hc; congruence.
  - apply first_of_In in Hj. destruct Hj as [rest Hr].
    split; [rewrite Hr; left; reflexivity|]. split; [eauto|].
    intros _ Hs. apply text_after_read. exact Hs.
  - apply first_of_In in Hj. destruct Hj as [rest Hr].
    split; [rewrite Hr; left; reflexivity|]. split; [eauto|].
    intros _ Hs. apply text_after_read. apply in_or_app. auto.
Qed.


End Reads.


Example two_token_file_read_twice :
  load_data string (list string) example_read_json example_json_load example_read_search
            [two_token_file] (open_files [two_token_file])
  = (mkSession [""] [(0%nat, Streaming, "history-two"); (0%nat, Wrapped, "")],
     Raise JSONDecodeError).
Proof. vm_compute. reflexivity. Qed.


(* ===================================================================== *)
(** * Further properties of the code *)
(* ===================================================================== *)

(** ** File names and groups *)

Lemma prefix_append needle hay :
  String.prefix needle hay = true <-> exists post, hay = String.append needle post.
Proof.
  revert hay. induction needle as [|c n IH]; intros hay; simpl.
  - split; [intros _; exists hay; reflexivity|intros _; destruct hay; reflexivity].
  - destruct hay as [|c' h]; simpl.
    + split; [discriminate|intros [post H]; discriminate].
    + destruct (Ascii.ascii_dec c c') as [->|Hne].
      * rewrite IH. split; intros [post H]; exists post; [rewrite H; reflexivity|].
        injection H as ->. reflexivity.
      * split; [discriminate|]. intros [post H]. injection H as E _. congruence.
Qed.

Lemma contains_iff_substring needle hay :
  contains needle hay = true <->
  exists pre post, hay = String.append pre (String.append needle post).
Proof.
  induction hay as [|c h IH].
  - change (contains needle "") with (String.prefix needle "" || false).
    rewrite orb_false_r, prefix_append. split.
    + intros [post H]. exists "", post. exact H.
    + intros [pre [post H]]. destruct pre as [|c p]; simpl in H; [eauto|discriminate].
  - change (contains needle (String c h)) with
      (String.prefix needle (String c h) || contains needle h).
    rewrite orb_true_iff, prefix_append, IH. split.
    + intros [[post H]|[pre [post H]]].
      * exists "", post. exact H.
      * exists (String c pre), post. simpl. rewrite H. reflexivity.
    + intros [pre [post H]]. destruct pre as [|c' p]; simpl in H.
      * left. eauto.
      * right. injection H as _ H. eauto.
Qed.

(** A file is put in a group exactly when its name reads: some text, the
    group's token in the same letter case, some text; a name that contains
    none of the tokens puts the file in no group. *)
Theorem group_iff_token_inside_name (c : Category) (files : list UploadedFile) (i : nat) :
  In i (group c files) <->
  exists f pre post,
    nth_error files i = Some f /\
    name f = String.append pre (String.append (token c) post).
Proof.
  rewrite group_spec. split.
  - intros [f [Hf Hc]]. apply contains_iff_substring in Hc.
    destruct Hc as [pre [post Hn]]. exists f, pre, post. auto.
  - intros [f [pre [post [Hf Hn]]]]. exists f. split; [exact Hf|].
    apply contains_iff_substring. eauto.
Qed.

Example group_is_case_sensitive :
  group Streaming [mkFile "streaminghistory0.json" "x"; mkFile "MyStreamingHistory_2.json" "y"]
  = [1%nat].
Proof. reflexivity. Qed.

(** ** What [load_data] returns and when the page stops *)

Section LoadResult.

Variables (Doc SearchFrame : Type).
Variable pd_read_json : string -> result DataFrame.
Variable json_load : string -> result Doc.
Variable pd_read_json_search : string -> result SearchFrame.

Let load := load_data Doc SearchFrame pd_read_json json_load pd_read_json_search.
Let run := process Doc SearchFrame pd_read_json json_load pd_read_json_search.

Lemma streaming_results idxs : forall s s' dfs,
  NoDup idxs ->
  smapM (read_streaming pd_read_json) idxs s = (s', Ok dfs) ->
  Forall2 (fun i t => pd_read_json (nth i (unread s) "") = Ok t) idxs dfs.
Proof.
  induction idxs as [|i idxs IH]; intros s s' dfs Hnd H.
  - simpl in H. unfold ret in H. injection H as _ <-. constructor.
  - inversion Hnd as [|? ? Hi Hnd']; subst.
    simpl in H. unfold sbind at 1 in H. unfold read_streaming at 1 in H.
    unfold sbind at 1, read_file, lift in H.
    destruct (pd_read_json (nth i (unread s) "")) as [y|e] eqn:Ey; [|discriminate].
    unfold sbind in H.
    destruct (smapM (read_streaming pd_read_json) idxs _) as [s2 [ys|e]] eqn:E2;
      unfold ret in H; [|discriminate].
    injection H as _ <-. constructor; [exact Ey|].
    pose proof (IH _ _ _ Hnd' E2) as Hrest. simpl in Hrest.
    clear -Hrest Hi. induction Hrest as [|j t l l' Hj _ IHr]; constructor.
    + rewrite drain_nth in Hj. destruct (Nat.eqb_spec i j) as [->|_]; [|exact Hj].
      exfalso. apply Hi. left. reflexivity.
    + apply IHr. intros Hin. apply Hi. right. exact Hin.
Qed.

Lemma load_data_ok_inv (files : list UploadedFile) (s' : Session)
    (d : Data Doc SearchFrame) (H : load files (open_files files) = (s', Ok d)) :
  (exists dfs,
     Forall2 (fun i t => pd_read_json (nth i (map data files) "") = Ok t)
             (group Streaming files) dfs /\
     streaming d = match group Streaming files with
                   | [] => None
                   | _ :: _ => Some (List.concat dfs)
                   end) /\
  match group Wrapped files with
  | [] => wrapped d = None
  | i :: _ => exists doc, wrapped d = Some doc /\
                          json_load (text_after (group Streaming files) files i) = Ok doc
  end /\
  match group Search files with
  | [] => search d = None
  | i :: _ => exists tbl, search d = Some tbl /\
                pd_read_json_search
                  (text_after (group Streaming files ++ first_of Wrapped files) files i) = Ok tbl
  end.
Proof.
  unfold load, load_data in H.
  change (select "StreamingHistory" files) with (group Streaming files) in H.
  change (select "Wrapped" files) with (group Wrapped files) in H.
  change (select "SearchQueries" files) with (group Search files) in H.
  unfold sbind at 1 in H. rewrite streaming_phase in H.
  destruct (smapM (read_streaming pd_read_json) (group Streaming files) (open_files files))
    as [s1 r1] eqn:E1.
  destruct (streaming_reads _ _ _ _ _ (group_NoDup Streaming files) E1)
    as [done [rest [Hsplit [_ [Hunread Hok]]]]].
  simpl fst in H. simpl snd in H.
  destruct r1 as [dl|e]; simpl in H; [|discriminate].
  rewrite (Hok dl eq_refl), app_nil_r in Hsplit. subst done.
  pose proof (streaming_results _ _ _ _ (group_NoDup Streaming files) E1) as Hdl.
  simpl in Hdl, Hunread.
  unfold sbind at 1 in H. rewrite wrapped_phase in H.
  pose proof (after_read_unread Wrapped files s1) as Hunread2.
  set (s2 := match group Wrapped files with
             | [] => s1
             | i :: _ => mkSession (drain i (unread s1))
                                   (reads s1 ++ [(i, Wrapped, nth i (unread s1) "")])
             end) in *.
  clearbody s2.
  destruct (match group Wrapped files with
            | [] => Ok None
            | i :: _ => bind (json_load (nth i (unread s1) "")) (fun d => Ok (Some d))
            end) as [wr|e] eqn:Ew; [|discriminate].
  unfold sbind at 1 in H. rewrite search_phase in H.
  destruct (match group Search files with
            | [] => Ok None
            | i :: _ => bind (pd_read_json_search (nth i (unread s2) "")) (fun d => Ok (Some d))
            end) as [se|e] eqn:Es; [|discriminate].
  unfold ret in H. injection H as _ <-. simpl.
  split; [exists dl; split; [exact Hdl|reflexivity]|]. split.
  - destruct (group Wrapped files) as [|i l]; [injection Ew as <-; reflexivity|].
    rewrite Hunread in Ew. fold (text_after (group Streaming files) files i) in Ew.
    destruct (json_load (text_after (group Streaming files) files i)) as [doc|e];
      simpl in Ew; [|discriminate].
    injection Ew as <-. exists doc. split; reflexivity.
  - destruct (group Search files) as [|i l]; [injection Es as <-; reflexivity|].
    assert (Ht : nth i (unread s2) "" =
                 text_after (group Streaming files ++ first_of Wrapped files) files i).
    { rewrite Hunread2, Hunread. unfold text_after. rewrite existsb_app.
      destruct (existsb (Nat.eqb i) (group Streaming files)),
               (existsb (Nat.eqb i) (first_of Wrapped files)); reflexivity. }
    rewrite Ht in Es.
    destruct (pd_read_json_search _) as [tbl|e]; simpl in Es; [|discriminate].
    injection Es as <-. exists tbl. split; reflexivity.
Qed.


Lemma group_nil_iff c files :
  group c files = [] <-> Forall (fun f => contains (token c) (name f) = false) files.
Proof.
  split.
  - intros Hnil. apply Forall_forall. intros f Hf.
    destruct (contains (token c) (name f)) eqn:E; [|reflexivity].
    apply In_nth_error in Hf. destruct Hf as [i Hi].
    assert (Hin : In i (group c files)) by (apply group_spec; eauto).
    rewrite Hnil in Hin. destruct Hin.
  - intros Hall. destruct (group c files) as [|i l] eqn:E; [reflexivity|].
    assert (Hin : In i (group c files)) by (rewrite E; left; reflexivity).
    apply group_spec in Hin. destruct Hin as [f [Hf Hc]].
    apply nth_error_In in Hf. rewrite Forall_forall in Hall.
    rewrite (Hall f Hf) in Hc. discriminate.
Qed.

Lemma streaming_total idxs : forall s,
  NoDup idxs ->
  Forall (fun i => exists t, pd_read_json (nth i (unread s) "") = Ok t) idxs ->
  exists s' dfs, smapM (read_streaming pd_read_json) idxs s = (s', Ok dfs).
Proof.
  induction idxs as [|i idxs IH]; intros s Hnd Hall.
  - exists s, []. reflexivity.
  - inversion Hnd as [|? ? Hi Hnd']; subst. inversion Hall as [|? ? [t Ht] Hrest]; subst.
    simpl. unfold sbind at 1. unfold read_streaming at 1. unfold sbind at 1, read_file, lift.
    rewrite Ht.
    set (s1 := mkSession (drain i (unread s)) (reads s ++ [(i, Streaming, nth i (unread s) "")])).
    destruct (IH s1 Hnd') as [s2 [ys E2]].
    + apply Forall_forall. intros j Hj. rewrite Forall_forall in Hrest.
      destruct (Hrest j Hj) as [tj Htj]. exists tj. unfold s1. simpl. rewrite drain_nth.
      destruct (Nat.eqb_spec i j) as [->|_]; [contradiction|exact Htj].
    + exists s2, (t :: ys). unfold sbind. rewrite E2. reflexivity.
Qed.


(** The page asks for a StreamingHistory file exactly in the cases in
    which no uploaded file name contains "StreamingHistory": that outcome
    implies there is none, reaching the tabs implies there is one, and an
    upload of at least one file, none of whose names contains any of the
    three tokens, always ends in the request. *)
Theorem no_streaming_history_warning (files : list UploadedFile) :
  (run files = NoStreamingHistory ->
     Forall (fun f => contains "StreamingHistory" (name f) = false) files) /\
  (forall raw df, run files = Ready raw df ->
     Exists (fun f => contains "StreamingHistory" (name f) = true) files) /\
  (files <> [] ->
   Forall (fun f => contains "StreamingHistory" (name f) = false /\
                    contains "Wrapped" (name f) = false /\
                    contains "SearchQueries" (name f) = false) files ->
     run files = NoStreamingHistory).
Proof.
  split; [|split].
  - unfold run, process. intros H.
    destruct (load_data _ _ _ _ _ files (open_files files)) as [s' [d|e]] eqn:E; [|discriminate].
    destruct (load_data_ok_inv _ _ _ E) as [[dfs [_ Hst]] _].
    destruct (streaming d) as [raw|] eqn:Es.
    + destruct (clean_data raw) as [? [?|?]]; discriminate.
    + apply (group_nil_iff Streaming). destruct (group Streaming files); [reflexivity|discriminate].
  - unfold run, process. intros raw df H.
    destruct (load_data _ _ _ _ _ files (open_files files)) as [s' [d|e]] eqn:E; [|discriminate].
    destruct (load_data_ok_inv _ _ _ E) as [[dfs [_ Hst]] _].
    destruct (streaming d) as [raw0|] eqn:Es; [|discriminate].
    destruct (group Streaming files) as [|i l] eqn:Eg; [discriminate|].
    assert (Hin : In i (group Streaming files)) by (rewrite Eg; left; reflexivity).
    apply group_spec in Hin. destruct Hin as [f [Hf Hc]].
    apply Exists_exists. exists f. split; [exact (nth_error_In _ _ Hf)|exact Hc].
  - intros _ Hall.
    assert (Hs : group Streaming files = []).
    { apply group_nil_iff. eapply Forall_impl; [|exact Hall]. simpl. tauto. }
    assert (Hw : group Wrapped files = []).
    { apply group_nil_iff. eapply Forall_impl; [|exact Hall]. simpl. tauto. }
    assert (Hq : group Search files = []).
    { apply group_nil_iff. eapply Forall_impl; [|exact Hall]. simpl. tauto. }
    unfold run, process, load_data.
    change (select "StreamingHistory" files) with (group Streaming files).
    change (select "Wrapped" files) with (group Wrapped files).
    change (select "SearchQueries" files) with (group Search files).
    rewrite Hs, Hw, Hq. reflexivity.
Qed.

(** A file whose name contains none of the three tokens is never read by
    [load_data], whatever the other files are and whether or not a decoder
    raises. *)
Theorem unmatched_files_are_never_read (files : list UploadedFile) (s' : Session)
    (r : result (Data Doc SearchFrame)) (i : nat) (f : UploadedFile)
    (H : load files (open_files files) = (s', r))
    (Hf : nth_error files i = Some f)
    (Hnone : forall c, contains (token c) (name f) = false) :
  forall c text, ~ In (i, c, text) (reads s').
Proof.
  intros c text Hin. destruct (load_data_log _ _ _ _ _ _ _ _ H) as [[rest Hp] _].
  assert (Hpl : In (i, c, text) (planned_reads files)) by (rewrite Hp; apply in_or_app; auto).
  apply planned_reads_In in Hpl. destruct Hpl as [Hg _].
  apply group_spec in Hg. destruct Hg as [f' [Hf' Hc]].
  rewrite Hf in Hf'. injection Hf' as <-. rewrite Hnone in Hc. discriminate.
Qed.

(** When [json.load] refuses the empty text, as it does, an upload in
    which the first file of the Wrapped group is also in the
    StreamingHistory group never reaches the tabs: the file has been read
    to its end for the streaming history, the summary is decoded from the
    empty text, and the run fails - with the JSON decoder's error whenever
    the streaming files themselves decode. *)
Theorem file_in_streaming_and_first_wrapped_fails (files : list UploadedFile)
    (i : nat) (rest : list nat) (e : PyError)
    (Hempty : json_load "" = Raise e)
    (Hw : group Wrapped files = i :: rest)
    (Hs : In i (group Streaming files)) :
  (exists e', run files = Failed e') /\
  (Forall (fun j => exists t, pd_read_json (nth j (map data files) "") = Ok t)
          (group Streaming files) ->
   run files = Failed e).
Proof.
  split.
  - unfold run, process.
    destruct (load_data _ _ _ _ _ files (open_files files)) as [s' [d|e']] eqn:E; [|eauto].
    exfalso. destruct (load_data_ok_inv _ _ _ E) as [_ [Hwr _]].
    rewrite Hw in Hwr. destruct Hwr as [doc [_ Hdoc]].
    rewrite (text_after_read _ _ _ Hs), Hempty in Hdoc. discriminate.
  - intros Hall.
    destruct (streaming_total _ (open_files files) (group_NoDup Streaming files) Hall)
      as [s1 [dfs E1]].
    destruct (streaming_reads _ _ _ _ _ (group_NoDup Streaming files) E1)
      as [done [rest' [Hsplit [_ [Hunread Hok]]]]].
    rewrite (Hok dfs eq_refl), app_nil_r in Hsplit. subst done.
    unfold run, process, load_data.
    change (select "StreamingHistory" files) with (group Streaming files).
    change (select "Wrapped" files) with (group Wrapped files).
    change (select "SearchQueries" files) with (group Search files).
    unfold sbind at 1. rewrite streaming_phase, E1. simpl fst. simpl snd. simpl bind.
    unfold sbind at 1. rewrite wrapped_phase, Hw.
    rewrite Hunread.
    assert (Ex : existsb (Nat.eqb i) (group Streaming files) = true).
    { apply existsb_exists. exists i. split; [exact Hs|apply Nat.eqb_refl]. }
    rewrite Ex, Hempty. reflexivity.
Qed.

End LoadResult.


Lemma no_streaming_history_warning_witness :
  process string (list string) example_read_json example_json_load example_read_search
          [other_file] = NoStreamingHistory.
Proof.
  apply (proj2 (proj2 (no_streaming_history_warning string (list string)
                         example_read_json example_json_load example_read_search
                         [other_file]))).
  - discriminate.
  - repeat constructor.
Defined.

Lemma unmatched_files_are_never_read_witness :
  ~ In (0%nat, Streaming, "playlists")
       (reads (fst (load_data string (list string) example_read_json example_json_load
                              example_read_search [other_file; history_one]
                              (open_files [other_file; history_one])))).
Proof.
  refine (unmatched_files_are_never_read string (list string)
            example_read_json example_json_load example_read_search
            [other_file; history_one] _ _ 0%nat other_file _ eq_refl _
            Streaming "playlists").
  - vm_compute. reflexivity.
  - intros c. destruct c; reflexivity.
Defined.

Lemma file_in_streaming_and_first_wrapped_fails_witness :
  process string (list string) example_read_json example_json_load example_read_search
          [history_one; two_token_file] = Failed JSONDecodeError.
Proof.
  refine (proj2 (file_in_streaming_and_first_wrapped_fails string (list string)
                   example_read_json example_json_load example_read_search
                   [history_one; two_token_file] 1%nat [] JSONDecodeError
                   eq_refl eq_refl _) _).
  - simpl. auto.
  - repeat constructor; eexists; reflexivity.
Defined.



(** ** Counts add up *)

Lemma list_sum_perm (l1 l2 : list Z) :
  Permutation l1 l2 -> fold_right Z.add 0 l1 = fold_right Z.add 0 l2.
Proof. induction 1; simpl; lia. Qed.

Lemma sum_counts_perm {K : Type} (t1 t2 : list (K * Z)) :
  Permutation t1 t2 -> sum_counts t1 = sum_counts t2.
Proof. intros H. apply list_sum_perm, Permutation_map, H. Qed.

Lemma sum_counts_app {K : Type} (t1 t2 : list (K * Z)) :
  sum_counts (t1 ++ t2) = sum_counts t1 + sum_counts t2.
Proof.
  unfold sum_counts. rewrite map_app. induction (map snd t1) as [|x xs IH]; simpl; lia.
Qed.

Lemma sum_counts_bump {K : Type} (eqb : K -> K -> bool) k tbl :
  sum_counts (bump eqb k tbl) = sum_counts tbl + 1.
Proof.
  unfold sum_counts. induction tbl as [|[k' c] rest IH]; simpl; [lia|].
  destruct (eqb k k'); simpl; lia.
Qed.

Lemma sum_counts_tally {K : Type} (eqb : K -> K -> bool) col :
  sum_counts (tally eqb col) = Z.of_nat (List.length col).
Proof.
  unfold tally.
  assert (H : forall tbl, sum_counts (fold_left (fun t k => bump eqb k t) col tbl)
                          = sum_counts tbl + Z.of_nat (List.length col)).
  { induction col as [|x xs IH]; intros tbl; [simpl; lia|].
    cbn [fold_left List.length]. rewrite IH, sum_counts_bump, Nat2Z.inj_succ. lia. }
  rewrite H. reflexivity.
Qed.

Lemma sum_counts_value_counts {K : Type} (eqb : K -> K -> bool) col :
  sum_counts (value_counts eqb col) = Z.of_nat (List.length col).
Proof.
  unfold value_counts. rewrite (sum_counts_perm _ _ (sort_values_desc_perm _)).
  apply sum_counts_tally.
Qed.

Section Cover.

Context {K : Type} (eqb : K -> K -> bool).
Hypothesis eqb_spec : forall x y, reflect (x = y) (eqb x y).



End Cover.

(** ** Rows returned by [clean_data] *)










(** ** Every row is counted once *)







(** ** Distinct songs and artists *)

Lemma nunique_first_seen col :
  nunique String.eqb col = Z.of_nat (List.length (first_seen String.eqb col)).
Proof.
  unfold nunique. rewrite (tally_spec _ string_eqb_spec), length_map. reflexivity.
Qed.

Lemma first_seen_length_le col :
  (List.length (first_seen String.eqb col) <= List.length col)%nat.
Proof.
  apply NoDup_incl_length; [apply (first_seen_NoDup _ string_eqb_spec)|].
  intros x Hx. exact (proj1 (first_seen_In _ string_eqb_spec x col) Hx).
Qed.

(** The numbers of distinct songs and artists shown in the overview are
    at least 1 on a frame with rows, 0 on the empty frame, and never more
    than the number of rows; the top lists of tab 2 have 10 entries or,
    when fewer songs or artists are distinct, exactly that many; and the
    full ranking lists every song of the frame. *)
Theorem unique_counts_bounds (df : CanonTable) :
  0 <= unique_songs df <= Z.of_nat (List.length df) /\
  0 <= unique_artists df <= Z.of_nat (List.length df) /\
  (unique_songs df = 0 <-> df = []) /\
  (unique_artists df = 0 <-> df = []) /\
  Z.of_nat (List.length (top_10_songs df)) = Z.min 10 (unique_songs df) /\
  Z.of_nat (List.length (top_10_artists df)) = Z.min 10 (unique_artists df) /\
  (forall k, In k (track_col df) <-> In k (map fst (value_counts String.eqb (track_col df)))).
Proof.
  assert (Hb : forall col, 0 <= nunique String.eqb col <= Z.of_nat (List.length col)).
  { intros col. rewrite nunique_first_seen. pose proof (first_seen_length_le col). lia. }
  assert (Hz : forall col, nunique String.eqb col = 0 <-> col = []).
  { intros col. rewrite nunique_first_seen. destruct col; simpl; split; intros H;
      try reflexivity; try discriminate; lia. }
  assert (Hl : forall n col, Z.of_nat (List.length (top_counts n col))
                             = Z.min (Z.of_nat n) (nunique String.eqb col)).
  { intros n col. unfold top_counts, head. rewrite length_firstn.
    rewrite (value_counts_length _ string_eqb_spec), nunique_first_seen. lia. }
  unfold unique_songs, unique_artists, top_10_songs, top_10_artists.
  split; [rewrite <- (length_map (fun r => trackName (base r)) df); apply Hb|].
  split; [rewrite <- (length_map (fun r => artistName (base r)) df); apply Hb|].
  split; [rewrite Hz; unfold track_col; destruct df; simpl; split; congruence|].
  split; [rewrite Hz; unfold artist_col; destruct df; simpl; split; congruence|].
  split; [apply (Hl 10%nat)|]. split; [apply (Hl 10%nat)|].
  intros k. split.
  - intros Hk. apply in_map_iff. exists (k, occurrences String.eqb k (track_col df)).
    split; [reflexivity|]. apply (value_counts_In _ string_eqb_spec). auto.
  - intros Hk. apply in_map_iff in Hk. destruct Hk as [[k' c] [E Hin]]. simpl in E. subst k'.
    apply (value_counts_In _ string_eqb_spec) in Hin. tauto.
Qed.

(** ** The top artist across the tabs *)

Lemma occurrences_artist_rows a df :
  occurrences String.eqb a (artist_col df) = Z.of_nat (List.length (artist_rows a df)).
Proof.
  unfold artist_col, artist_rows. induction df as [|c l IH]; [reflexivity|].
  cbn [map occurrences filter]. rewrite IH, (String.eqb_sym a).
  destruct (String.eqb (artistName (base c)) a); cbn [List.length]; lia.
Qed.

(** When the top artist can be looked up, that artist heads the top-10
    artist list of tab 2 with the number of rows of the deep dive's slice;
    every row of the slice is by that artist; the slice's hour histogram
    counts each of its rows once; and every song in its top 5 is a song of
    a row by that artist. *)
Theorem top_artist_heads_artist_list (df : CanonTable) (a : string)
    (H : top_artist_name df = Ok a) :
  (exists rest,
     top_10_artists df = (a, Z.of_nat (List.length (artist_rows a df))) :: rest) /\
  Forall (fun c => artistName (base c) = a /\ In c df) (artist_rows a df) /\
  sum_counts (dd_hourly (deep_dive_for a df)) = Z.of_nat (List.length (artist_rows a df)) /\
  (List.length (dd_top_tracks (deep_dive_for a df)) <= 5)%nat /\
  (forall t n, In (t, n) (dd_top_tracks (deep_dive_for a df)) ->
     exists c, In c df /\ artistName (base c) = a /\ trackName (base c) = t).
Proof.
  assert (Hrows : Forall (fun c => artistName (base c) = a /\ In c df) (artist_rows a df)).
  { apply Forall_forall. intros c Hc. unfold artist_rows in Hc. apply filter_In in Hc.
    destruct Hc as [Hin E]. apply String.eqb_eq in E. auto. }
  split; [|split; [exact Hrows|split; [|split]]].
  - unfold top_artist_name in H. unfold top_10_artists, top_counts, head.
    destruct (value_counts String.eqb (artist_col df)) as [|[k c] rest] eqn:E;
      simpl in H; [discriminate|]. injection H as ->.
    assert (Hin : In (a, c) (value_counts String.eqb (artist_col df)))
      by (rewrite E; left; reflexivity).
    apply (value_counts_In _ string_eqb_spec) in Hin. destruct Hin as [_ ->].
    rewrite occurrences_artist_rows. simpl. eexists. reflexivity.
  - unfold deep_dive_for. cbn [dd_hourly]. unfold hourly_counts.
    rewrite (sum_counts_perm _ _ (sort_index_perm _)), sum_counts_value_counts.
    unfold hour_col. rewrite length_map. reflexivity.
  - unfold deep_dive_for. cbn [dd_top_tracks]. unfold top_counts, head. apply firstn_le_length.
  - intros t n Hin. unfold deep_dive_for in Hin. cbn [dd_top_tracks] in Hin.
    unfold top_counts in Hin. apply head_In in Hin.
    apply (value_counts_In _ string_eqb_spec) in Hin. destruct Hin as [Ht _].
    unfold track_col in Ht. apply in_map_iff in Ht. destruct Ht as [c [<- Hc]].
    rewrite Forall_forall in Hrows. destruct (Hrows c Hc) as [Ha Hdf]. exists c. auto.
Qed.

Lemma top_artist_heads_artist_list_witness :
  exists rest,
    top_10_artists sample_cleaned
    = ("A", Z.of_nat (List.length (artist_rows "A" sample_cleaned))) :: rest.
Proof.
  exact (proj1 (top_artist_heads_artist_list sample_cleaned "A" eq_refl)).
Defined.

(** ** The order of the rows *)

Lemma occurrences_perm {K : Type} (eqb : K -> K -> bool) k (l1 l2 : list K) :
  Permutation l1 l2 -> occurrences eqb k l1 = occurrences eqb k l2.
Proof. induction 1; simpl; lia. Qed.

Lemma nunique_perm (l1 l2 : list string) :
  Permutation l1 l2 -> nunique String.eqb l1 = nunique String.eqb l2.
Proof.
  intros H. rewrite !nunique_first_seen. f_equal. apply Permutation_length.
  apply NoDup_Permutation; try apply (first_seen_NoDup _ string_eqb_spec).
  intros x. rewrite !(first_seen_In _ string_eqb_spec). split; intros Hx.
  - exact (Permutation_in _ H Hx).
  - exact (Permutation_in _ (Permutation_sym H) Hx).
Qed.

Lemma rising_index_unique {V : Type} (l1 : list (Z * V)) : forall l2,
  by_rising_index l1 -> by_rising_index l2 ->
  (forall x, In x l1 <-> In x l2) -> l1 = l2.
Proof.
  unfold by_rising_index.
  induction l1 as [|a l1 IH]; intros l2 H1 H2 Hiff.
  - destruct l2 as [|b l2]; [reflexivity|]. exfalso. apply (Hiff b). left. reflexivity.
  - destruct l2 as [|b l2]; [exfalso; apply (Hiff a); left; reflexivity|].
    inversion H1 as [|? ? Hs1 Ha]; subst. inversion H2 as [|? ? Hs2 Hb]; subst.
    rewrite Forall_forall in Ha, Hb.
    assert (Eab : a = b).
    { destruct (proj1 (Hiff a) (or_introl eq_refl)) as [E|Hin]; [auto|].
      destruct (proj2 (Hiff b) (or_introl eq_refl)) as [E|Hin']; [auto|].
      specialize (Ha _ Hin'). specialize (Hb _ Hin). lia. }
    subst b. f_equal. apply IH; [exact Hs1|exact Hs2|].
    intros x. split; intros Hx.
    + destruct (proj1 (Hiff x) (or_intror Hx)) as [E|Hin]; [|exact Hin].
      subst x. specialize (Ha _ Hx). lia.
    + destruct (proj2 (Hiff x) (or_intror Hx)) as [E|Hin]; [|exact Hin].
      subst x. specialize (Hb _ Hx). lia.
Qed.

(** The totals and the histograms do not depend on the order of the rows,
    hence not on the order in which the files were uploaded: two frames
    with the same rows in any order give the same total play time, the same
    numbers of distinct songs and artists, the same hour histogram and the
    same day histogram. *)
Theorem row_order_is_irrelevant_to_histograms (df1 df2 : CanonTable)
    (H : Permutation df1 df2) :
  total_ms df1 = total_ms df2 /\
  unique_songs df1 = unique_songs df2 /\
  unique_artists df1 = unique_artists df2 /\
  hourly_counts df1 = hourly_counts df2 /\
  daily_counts df1 = daily_counts df2.
Proof.
  split; [unfold total_ms; apply list_sum_perm, Permutation_map, H|].
  split; [apply nunique_perm, Permutation_map, H|].
  split; [apply nunique_perm, Permutation_map, H|].
  assert (Hh : Permutation (hour_col df1) (hour_col df2)) by (apply Permutation_map, H).
  assert (Hd : Permutation (day_col df1) (day_col df2)) by (apply Permutation_map, H).
  split.
  - apply rising_index_unique;
      try (apply sort_index_sorted, (value_counts_NoDup _ Z_eqb_spec)).
    intros [h c]. unfold hourly_counts.
    assert (Hin : forall df, In (h, c) (sort_index (value_counts Z.eqb (hour_col df))) <->
                             In h (hour_col df) /\ c = occurrences Z.eqb h (hour_col df)).
    { intros df. rewrite <- (value_counts_In _ Z_eqb_spec). split; intros Hx.
      - exact (Permutation_in _ (sort_index_perm _) Hx).
      - exact (Permutation_in _ (Permutation_sym (sort_index_perm _)) Hx). }
    rewrite !Hin, (occurrences_perm _ h _ _ Hh). split; intros [Hx Hc]; split; auto.
    + exact (Permutation_in _ Hh Hx).
    + exact (Permutation_in _ (Permutation_sym Hh) Hx).
  - unfold daily_counts, reindex. apply map_ext. intros d.
    rewrite !(lookup_value_counts _ string_eqb_spec), (occurrences_perm _ d _ _ Hd).
    assert (Em : mem String.eqb d (day_col df1) = mem String.eqb d (day_col df2)).
    { destruct (mem String.eqb d (day_col df1)) eqn:E1, (mem String.eqb d (day_col df2)) eqn:E2;
        try reflexivity.
      - apply (mem_spec _ string_eqb_spec) in E1. apply (mem_false _ string_eqb_spec) in E2.
        exfalso. apply E2. exact (Permutation_in _ Hd E1).
      - apply (mem_false _ string_eqb_spec) in E1. apply (mem_spec _ string_eqb_spec) in E2.
        exfalso. apply E1. exact (Permutation_in _ (Permutation_sym Hd) E2). }
    rewrite Em. reflexivity.
Qed.

Lemma row_order_is_irrelevant_to_histograms_witness :
  hourly_counts (rev sample_cleaned) = hourly_counts sample_cleaned /\
  daily_counts (rev sample_cleaned) = daily_counts sample_cleaned.
Proof.
  pose proof (row_order_is_irrelevant_to_histograms (rev sample_cleaned) sample_cleaned
                (perm_swap _ _ [])) as W.
  split; [exact (proj1 (proj2 (proj2 (proj2 W))))|exact (proj2 (proj2 (proj2 (proj2 W))))].
Defined.
